(** * The chat session controller of static/js/chat.js

    A shallow embedding of the chat widget: its text helpers
    ([escapeHtml], [formatMessage], [String.prototype.trim]), the closure
    variables [currentLessonPlan], [currentLessonIndex], [isFirstMessage],
    the part of the page the handlers read and write, and the handlers
    themselves, each split at its [await] into the part that runs when the
    event fires and the part that runs when the request settles. *)

From Stdlib Require Import List String Ascii NArith Bool Arith Lia.
Import ListNotations.

(** ** Strings *)

Module Text.

(** A JavaScript string is a sequence of UTF-16 code units. *)
Definition code_unit := N.
Definition str := list code_unit.

(** An ASCII literal of the source as code units. *)
Definition lit (s : string) : str :=
  map N_of_ascii (list_ascii_of_string s).

Definition str_eqb (a b : str) : bool :=
  if list_eq_dec N.eq_dec a b then true else false.

(** *** escapeHtml

    [div.textContent = text; return div.innerHTML]: the serialisation of a
    single text node, which escapes [&], U+00A0, [<] and [>]. *)
Definition escape_unit (c : code_unit) : str :=
  if (c =? 38)%N then lit "&amp;"
  else if (c =? 160)%N then lit "&nbsp;"
  else if (c =? 60)%N then lit "&lt;"
  else if (c =? 62)%N then lit "&gt;"
  else [c].

Definition escapeHtml (text : str) : str := flat_map escape_unit text.

(** *** The regular expressions of formatMessage

    Both have the shape [D(.+?)D] with a literal delimiter [D] and the
    global flag.  [.] matches every code unit but the line terminators. *)
Definition is_line_terminator (c : code_unit) : bool :=
  ((c =? 10) || (c =? 13) || (c =? 8232) || (c =? 8233))%N.

Fixpoint strip_prefix (p s : str) : option str :=
  match p with
  | [] => Some s
  | a :: p' =>
      match s with
      | [] => None
      | b :: s' => if (a =? b)%N then strip_prefix p' s' else None
      end
  end.

Section Replace.

(** [delim] is the literal [D]; the replacement is
    [open_tag ++ "$1" ++ close_tag]. *)
Variables (delim open_tag close_tag : str).

(** [(.+?)D] against [s]: the lazy quantifier takes one more unit at a
    time and tries [D] after each; a line terminator or the end of the
    input fails the attempt.  The result is the group and what follows
    the match. *)
Fixpoint lazy_group (s : str) : option (str * str) :=
  match s with
  | [] => None
  | c :: s' =>
      if is_line_terminator c then None
      else match strip_prefix delim s' with
           | Some rest => Some ([c], rest)
           | None =>
               match lazy_group s' with
               | Some (g, rest) => Some (c :: g, rest)
               | None => None
               end
           end
  end.

(** One attempt of the whole pattern at the head of [s]. *)
Definition match_at (s : str) : option (str * str) :=
  match strip_prefix delim s with
  | Some s1 => lazy_group s1
  | None => None
  end.

(** The global replace: the leftmost match from the current position is
    replaced and the scan resumes behind it; a unit at which no match
    starts is copied.  A match is never empty, so the number of units of
    the input bounds the number of rounds. *)
Fixpoint replace_loop (fuel : nat) (s : str) : str :=
  match fuel with
  | O => s
  | S fuel' =>
      match s with
      | [] => []
      | c :: s' =>
          match match_at s with
          | Some (g, rest) =>
              open_tag ++ g ++ close_tag ++ replace_loop fuel' rest
          | None => c :: replace_loop fuel' s'
          end
      end
  end.

Definition replace_delimited (s : str) : str :=
  replace_loop (List.length s) s.

End Replace.

(** [text.replace(/\n/g, '<br>')]. *)
Definition replace_newlines (s : str) : str :=
  flat_map (fun c => if (c =? 10)%N then lit "<br>" else [c]) s.

(** *** formatMessage *)
Definition formatMessage (text : str) : str :=
  let text := escapeHtml text in
  let text :=
    replace_delimited (lit "**") (lit "<strong>") (lit "</strong>") text in
  let text := replace_delimited (lit "*") (lit "<em>") (lit "</em>") text in
  let text := replace_newlines text in
  text.

(** *** String.prototype.trim

    Strips WhiteSpace and LineTerminator code units from both ends. *)
Definition is_white_space (c : code_unit) : bool :=
  ((c =? 9) || (c =? 10) || (c =? 11) || (c =? 12) || (c =? 13)
   || (c =? 32) || (c =? 160) || (c =? 5760)
   || ((8192 <=? c) && (c <=? 8202))
   || (c =? 8232) || (c =? 8233) || (c =? 8239) || (c =? 8287)
   || (c =? 12288) || (c =? 65279))%N.

Fixpoint trim_start (s : str) : str :=
  match s with
  | [] => []
  | c :: s' => if is_white_space c then trim_start s' else s
  end.

Definition trim_end (s : str) : str := rev (trim_start (rev s)).

Definition trim (s : str) : str := trim_end (trim_start s).

(** *** The markup pass as the specification words it

    A pair of delimiters with a non-empty run of units other than line
    terminators between them is replaced by the run between the two tags;
    matching is leftmost first and non-greedy (the shortest run at that
    place), and resumes behind the closing delimiter. *)
Definition dot (c : code_unit) : Prop := is_line_terminator c = false.

Section Reference.

Variables (delim open_tag close_tag : str).

(** [delim g delim] occurs in [s] behind [pre], followed by [post]. *)
Definition occurrence (s pre g post : str) : Prop :=
  s = pre ++ delim ++ g ++ delim ++ post /\ g <> [] /\ Forall dot g.

(** The occurrence that starts first and, among those, is shortest. *)
Definition first_shortest (s pre g post : str) : Prop :=
  occurrence s pre g post
  /\ forall pre' g' post',
      occurrence s pre' g' post' ->
      List.length pre < List.length pre'
      \/ (List.length pre = List.length pre'
          /\ List.length g <= List.length g').

Inductive marked_up : str -> str -> Prop :=
| marked_up_none s :
    (forall pre g post, ~ occurrence s pre g post) ->
    marked_up s s
| marked_up_match s pre g post out :
    first_shortest s pre g post ->
    marked_up post out ->
    marked_up s (pre ++ open_tag ++ g ++ close_tag ++ out).

(** The leftmost match of the scan of [replace_loop], with what the scan
    copied before it. *)
Fixpoint find_match (s : str) : option (str * str * str) :=
  match s with
  | [] => None
  | c :: s' =>
      match match_at delim s with
      | Some (g, rest) => Some ([], g, rest)
      | None =>
          match find_match s' with
          | Some (pre, g, post) => Some (c :: pre, g, post)
          | None => None
          end
      end
  end.

End Reference.

(** HTML-escaping as the specification means it, the serialisation of a
    text node of the HTML standard: [&], [<], [>] and U+00A0 become the
    entities [&amp;], [&lt;], [&gt;] and [&nbsp;]; every other unit stands
    for itself. *)
Inductive escaped : str -> str -> Prop :=
| escaped_nil : escaped [] []
| escaped_amp t o : escaped t o -> escaped (38%N :: t) (lit "&amp;" ++ o)
| escaped_lt t o : escaped t o -> escaped (60%N :: t) (lit "&lt;" ++ o)
| escaped_gt t o : escaped t o -> escaped (62%N :: t) (lit "&gt;" ++ o)
| escaped_nbsp t o : escaped t o -> escaped (160%N :: t) (lit "&nbsp;" ++ o)
| escaped_other c t o :
    c <> 38%N -> c <> 60%N -> c <> 62%N -> c <> 160%N ->
    escaped t o -> escaped (c :: t) (c :: o).

(** Newlines to line breaks: each U+000A becomes [<br>]. *)
Inductive line_broken : str -> str -> Prop :=
| line_broken_nil : line_broken [] []
| line_broken_newline t o :
    line_broken t o -> line_broken (10%N :: t) (lit "<br>" ++ o)
| line_broken_other c t o :
    c <> 10%N -> line_broken t o -> line_broken (c :: t) (c :: o).

(** The reference pipeline: escape, then strong emphasis for [**], then
    emphasis for [*], then line breaks for newlines. *)
Definition reference_render (text out : str) : Prop :=
  exists escaped_text bold italic,
    escaped text escaped_text
    /\ marked_up (lit "**") (lit "<strong>") (lit "</strong>")
                 escaped_text bold
    /\ marked_up (lit "*") (lit "<em>") (lit "</em>") bold italic
    /\ line_broken italic out.

(** *** Markup that cannot execute

    The only tags of the markup pass.  A string is safe when each of its
    [<] opens one of them, written out in full: it has no other element,
    and no attribute. *)
Definition inline_tags : list str :=
  [lit "<strong>"; lit "</strong>"; lit "<em>"; lit "</em>"; lit "<br>"].

Inductive markup_safe : str -> Prop :=
| safe_nil : markup_safe []
| safe_unit c s : c <> 60%N -> markup_safe s -> markup_safe (c :: s)
| safe_tag t s : In t inline_tags -> markup_safe s -> markup_safe (t ++ s).

End Text.

Import Text.

(** ** The page and the closure variables *)

(** [element.style.display]: not set by a script yet, or set to ['none'] or
    ['flex']. *)
Inductive Display := DisplayUnset | DisplayNone | DisplayFlex.

(** The avatar cell of a message view: the three glyphs of the
    templates. *)
Inductive Avatar := AvatarUser | AvatarRobot | AvatarWarning.

(** A [div] built by one of the message templates: its [className], the
    avatar, the inner HTML of the [message-bubble] cell and that of the
    [message-time] cell, which the system template does not have. *)
Record MessageDiv := mkMessageDiv {
  className : string;
  avatar : Avatar;
  bubble : str;
  time : option str
}.

(** The children of [chatMessages].

    Modelled from the spec: the page markup is not among the sources; the
    transcript starts with a welcome placeholder, the element the handlers
    look up with [querySelector('.welcome-message')]. *)
Inductive Node :=
| WelcomeMessage
| Message (m : MessageDiv).

(** An entry of [lessonList]: its [className], the content of the
    [lesson-number] cell (empty for a completed lesson at rendering time)
    and the inner HTML of the [lesson-text] cell. *)
Record LessonItem := mkLessonItem {
  item_className : string;
  lesson_number : option N;
  lesson_text : str
}.

(** The calls of [fetch]: the chat requests, the session request of
    [loadSession] and the DELETE of [clearSession]. *)
Inductive Request :=
| PostChat (message : str)
| GetSession
| DeleteSession.

(** What the event loop still owes the page: the continuation of a handler
    suspended at its [await], the timer of a toast, or the timer that
    reloads the page after the history was cleared. *)
Inductive Task :=
| TaskSubmit
| TaskControl (action : str)
| TaskLoadSession
| TaskToastHide
| TaskNewSession
| TaskClearHistory
| TaskReload.

Record State := mkState {
  (* the variables closed over by the handlers *)
  currentLessonPlan : list str;
  currentLessonIndex : N;
  isFirstMessage : bool;
  (* the elements *)
  chatInput_value : str;
  chatInput_disabled : bool;
  sendBtn_disabled : bool;
  nextLessonBtn_disabled : bool;
  replayLessonBtn_disabled : bool;
  typingIndicator_display : Display;
  lessonControls_display : Display;
  chatMessages : list Node;
  lessonList : list LessonItem;
  progressCurrent : option N;
  progressTotal : option N;
  toast_textContent : str;
  toast_show : bool;
  (* the trace: requests sent, toasts shown, and the tasks in flight *)
  fetches : list Request;
  notifications : list str;
  pending : list Task
}.

Definition set_currentLessonPlan (v : list str) (s : State) : State :=
  {| currentLessonPlan := v; currentLessonIndex := currentLessonIndex s;
     isFirstMessage := isFirstMessage s;
     chatInput_value := chatInput_value s;
     chatInput_disabled := chatInput_disabled s;
     sendBtn_disabled := sendBtn_disabled s;
     nextLessonBtn_disabled := nextLessonBtn_disabled s;
     replayLessonBtn_disabled := replayLessonBtn_disabled s;
     typingIndicator_display := typingIndicator_display s;
     lessonControls_display := lessonControls_display s;
     chatMessages := chatMessages s; lessonList := lessonList s;
     progressCurrent := progressCurrent s; progressTotal := progressTotal s;
     toast_textContent := toast_textContent s; toast_show := toast_show s;
     fetches := fetches s; notifications := notifications s;
     pending := pending s |}.

Definition set_currentLessonIndex (v : N) (s : State) : State :=
  {| currentLessonPlan := currentLessonPlan s; currentLessonIndex := v;
     isFirstMessage := isFirstMessage s;
     chatInput_value := chatInput_value s;
     chatInput_disabled := chatInput_disabled s;
     sendBtn_disabled := sendBtn_disabled s;
     nextLessonBtn_disabled := nextLessonBtn_disabled s;
     replayLessonBtn_disabled := replayLessonBtn_disabled s;
     typingIndicator_display := typingIndicator_display s;
     lessonControls_display := lessonControls_display s;
     chatMessages := chatMessages s; lessonList := lessonList s;
     progressCurrent := progressCurrent s; progressTotal := progressTotal s;
     toast_textContent := toast_textContent s; toast_show := toast_show s;
     fetches := fetches s; notifications := notifications s;
     pending := pending s |}.

Definition set_isFirstMessage (v : bool) (s : State) : State :=
  {| currentLessonPlan := currentLessonPlan s;
     currentLessonIndex := currentLessonIndex s; isFirstMessage := v;
     chatInput_value := chatInput_value s;
     chatInput_disabled := chatInput_disabled s;
     sendBtn_disabled := sendBtn_disabled s;
     nextLessonBtn_disabled := nextLessonBtn_disabled s;
     replayLessonBtn_disabled := replayLessonBtn_disabled s;
     typingIndicator_display := typingIndicator_display s;
     lessonControls_display := lessonControls_display s;
     chatMessages := chatMessages s; lessonList := lessonList s;
     progressCurrent := progressCurrent s; progressTotal := progressTotal s;
     toast_textContent := toast_textContent s; toast_show := toast_show s;
     fetches := fetches s; notifications := notifications s;
     pending := pending s |}.

Definition set_chatInput_value (v : str) (s : State) : State :=
  {| currentLessonPlan := currentLessonPlan s;
     currentLessonIndex := currentLessonIndex s;
     isFirstMessage := isFirstMessage s; chatInput_value := v;
     chatInput_disabled := chatInput_disabled s;
     sendBtn_disabled := sendBtn_disabled s;
     nextLessonBtn_disabled := nextLessonBtn_disabled s;
     replayLessonBtn_disabled := replayLessonBtn_disabled s;
     typingIndicator_display := typingIndicator_display s;
     lessonControls_display := lessonControls_display s;
     chatMessages := chatMessages s; lessonList := lessonList s;
     progressCurrent := progressCurrent s; progressTotal := progressTotal s;
     toast_textContent := toast_textContent s; toast_show := toast_show s;
     fetches := fetches s; notifications := notifications s;
     pending := pending s |}.

Definition set_chatInput_disabled (v : bool) (s : State) : State :=
  {| currentLessonPlan := currentLessonPlan s;
     currentLessonIndex := currentLessonIndex s;
     isFirstMessage := isFirstMessage s;
     chatInput_value := chatInput_value s; chatInput_disabled := v;
     sendBtn_disabled := sendBtn_disabled s;
     nextLessonBtn_disabled := nextLessonBtn_disabled s;
     replayLessonBtn_disabled := replayLessonBtn_disabled s;
     typingIndicator_display := typingIndicator_display s;
     lessonControls_display := lessonControls_display s;
     chatMessages := chatMessages s; lessonList := lessonList s;
     progressCurrent := progressCurrent s; progressTotal := progressTotal s;
     toast_textContent := toast_textContent s; toast_show := toast_show s;
     fetches := fetches s; notifications := notifications s;
     pending := pending s |}.

Definition set_sendBtn_disabled (v : bool) (s : State) : State :=
  {| currentLessonPlan := currentLessonPlan s;
     currentLessonIndex := currentLessonIndex s;
     isFirstMessage := isFirstMessage s;
     chatInput_value := chatInput_value s;
     chatInput_disabled := chatInput_disabled s; sendBtn_disabled := v;
     nextLessonBtn_disabled := nextLessonBtn_disabled s;
     replayLessonBtn_disabled := replayLessonBtn_disabled s;
     typingIndicator_display := typingIndicator_display s;
     lessonControls_display := lessonControls_display s;
     chatMessages := chatMessages s; lessonList := lessonList s;
     progressCurrent := progressCurrent s; progressTotal := progressTotal s;
     toast_textContent := toast_textContent s; toast_show := toast_show s;
     fetches := fetches s; notifications := notifications s;
     pending := pending s |}.

Definition set_nextLessonBtn_disabled (v : bool) (s : State) : State :=
  {| currentLessonPlan := currentLessonPlan s;
     currentLessonIndex := currentLessonIndex s;
     isFirstMessage := isFirstMessage s;
     chatInput_value := chatInput_value s;
     chatInput_disabled := chatInput_disabled s;
     sendBtn_disabled := sendBtn_disabled s; nextLessonBtn_disabled := v;
     replayLessonBtn_disabled := replayLessonBtn_disabled s;
     typingIndicator_display := typingIndicator_display s;
     lessonControls_display := lessonControls_display s;
     chatMessages := chatMessages s; lessonList := lessonList s;
     progressCurrent := progressCurrent s; progressTotal := progressTotal s;
     toast_textContent := toast_textContent s; toast_show := toast_show s;
     fetches := fetches s; notifications := notifications s;
     pending := pending s |}.

Definition set_replayLessonBtn_disabled (v : bool) (s : State) : State :=
  {| currentLessonPlan := currentLessonPlan s;
     currentLessonIndex := currentLessonIndex s;
     isFirstMessage := isFirstMessage s;
     chatInput_value := chatInput_value s;
     chatInput_disabled := chatInput_disabled s;
     sendBtn_disabled := sendBtn_disabled s;
     nextLessonBtn_disabled := nextLessonBtn_disabled s;
     replayLessonBtn_disabled := v;
     typingIndicator_display := typingIndicator_display s;
     lessonControls_display := lessonControls_display s;
     chatMessages := chatMessages s; lessonList := lessonList s;
     progressCurrent := progressCurrent s; progressTotal := progressTotal s;
     toast_textContent := toast_textContent s; toast_show := toast_show s;
     fetches := fetches s; notifications := notifications s;
     pending := pending s |}.

Definition set_typingIndicator_display (v : Display) (s : State) : State :=
  {| currentLessonPlan := currentLessonPlan s;
     currentLessonIndex := currentLessonIndex s;
     isFirstMessage := isFirstMessage s;
     chatInput_value := chatInput_value s;
     chatInput_disabled := chatInput_disabled s;
     sendBtn_disabled := sendBtn_disabled s;
     nextLessonBtn_disabled := nextLessonBtn_disabled s;
     replayLessonBtn_disabled := replayLessonBtn_disabled s;
     typingIndicator_display := v;
     lessonControls_display := lessonControls_display s;
     chatMessages := chatMessages s; lessonList := lessonList s;
     progressCurrent := progressCurrent s; progressTotal := progressTotal s;
     toast_textContent := toast_textContent s; toast_show := toast_show s;
     fetches := fetches s; notifications := notifications s;
     pending := pending s |}.

Definition set_lessonControls_display (v : Display) (s : State) : State :=
  {| currentLessonPlan := currentLessonPlan s;
     currentLessonIndex := currentLessonIndex s;
     isFirstMessage := isFirstMessage s;
     chatInput_value := chatInput_value s;
     chatInput_disabled := chatInput_disabled s;
     sendBtn_disabled := sendBtn_disabled s;
     nextLessonBtn_disabled := nextLessonBtn_disabled s;
     replayLessonBtn_disabled := replayLessonBtn_disabled s;
     typingIndicator_display := typingIndicator_display s;
     lessonControls_display := v; chatMessages := chatMessages s;
     lessonList := lessonList s; progressCurrent := progressCurrent s;
     progressTotal := progressTotal s;
     toast_textContent := toast_textContent s; toast_show := toast_show s;
     fetches := fetches s; notifications := notifications s;
     pending := pending s |}.

Definition set_chatMessages (v : list Node) (s : State) : State :=
  {| currentLessonPlan := currentLessonPlan s;
     currentLessonIndex := currentLessonIndex s;
     isFirstMessage := isFirstMessage s;
     chatInput_value := chatInput_value s;
     chatInput_disabled := chatInput_disabled s;
     sendBtn_disabled := sendBtn_disabled s;
     nextLessonBtn_disabled := nextLessonBtn_disabled s;
     replayLessonBtn_disabled := replayLessonBtn_disabled s;
     typingIndicator_display := typingIndicator_display s;
     lessonControls_display := lessonControls_display s; chatMessages := v;
     lessonList := lessonList s; progressCurrent := progressCurrent s;
     progressTotal := progressTotal s;
     toast_textContent := toast_textContent s; toast_show := toast_show s;
     fetches := fetches s; notifications := notifications s;
     pending := pending s |}.

Definition set_lessonList (v : list LessonItem) (s : State) : State :=
  {| currentLessonPlan := currentLessonPlan s;
     currentLessonIndex := currentLessonIndex s;
     isFirstMessage := isFirstMessage s;
     chatInput_value := chatInput_value s;
     chatInput_disabled := chatInput_disabled s;
     sendBtn_disabled := sendBtn_disabled s;
     nextLessonBtn_disabled := nextLessonBtn_disabled s;
     replayLessonBtn_disabled := replayLessonBtn_disabled s;
     typingIndicator_display := typingIndicator_display s;
     lessonControls_display := lessonControls_display s;
     chatMessages := chatMessages s; lessonList := v;
     progressCurrent := progressCurrent s; progressTotal := progressTotal s;
     toast_textContent := toast_textContent s; toast_show := toast_show s;
     fetches := fetches s; notifications := notifications s;
     pending := pending s |}.

Definition set_progressCurrent (v : option N) (s : State) : State :=
  {| currentLessonPlan := currentLessonPlan s;
     currentLessonIndex := currentLessonIndex s;
     isFirstMessage := isFirstMessage s;
     chatInput_value := chatInput_value s;
     chatInput_disabled := chatInput_disabled s;
     sendBtn_disabled := sendBtn_disabled s;
     nextLessonBtn_disabled := nextLessonBtn_disabled s;
     replayLessonBtn_disabled := replayLessonBtn_disabled s;
     typingIndicator_display := typingIndicator_display s;
     lessonControls_display := lessonControls_display s;
     chatMessages := chatMessages s; lessonList := lessonList s;
     progressCurrent := v; progressTotal := progressTotal s;
     toast_textContent := toast_textContent s; toast_show := toast_show s;
     fetches := fetches s; notifications := notifications s;
     pending := pending s |}.

Definition set_progressTotal (v : option N) (s : State) : State :=
  {| currentLessonPlan := currentLessonPlan s;
     currentLessonIndex := currentLessonIndex s;
     isFirstMessage := isFirstMessage s;
     chatInput_value := chatInput_value s;
     chatInput_disabled := chatInput_disabled s;
     sendBtn_disabled := sendBtn_disabled s;
     nextLessonBtn_disabled := nextLessonBtn_disabled s;
     replayLessonBtn_disabled := replayLessonBtn_disabled s;
     typingIndicator_display := typingIndicator_display s;
     lessonControls_display := lessonControls_display s;
     chatMessages := chatMessages s; lessonList := lessonList s;
     progressCurrent := progressCurrent s; progressTotal := v;
     toast_textContent := toast_textContent s; toast_show := toast_show s;
     fetches := fetches s; notifications := notifications s;
     pending := pending s |}.

Definition set_toast_textContent (v : str) (s : State) : State :=
  {| currentLessonPlan := currentLessonPlan s;
     currentLessonIndex := currentLessonIndex s;
     isFirstMessage := isFirstMessage s;
     chatInput_value := chatInput_value s;
     chatInput_disabled := chatInput_disabled s;
     sendBtn_disabled := sendBtn_disabled s;
     nextLessonBtn_disabled := nextLessonBtn_disabled s;
     replayLessonBtn_disabled := replayLessonBtn_disabled s;
     typingIndicator_display := typingIndicator_display s;
     lessonControls_display := lessonControls_display s;
     chatMessages := chatMessages s; lessonList := lessonList s;
     progressCurrent := progressCurrent s; progressTotal := progressTotal s;
     toast_textContent := v; toast_show := toast_show s;
     fetches := fetches s; notifications := notifications s;
     pending := pending s |}.

Definition set_toast_show (v : bool) (s : State) : State :=
  {| currentLessonPlan := currentLessonPlan s;
     currentLessonIndex := currentLessonIndex s;
     isFirstMessage := isFirstMessage s;
     chatInput_value := chatInput_value s;
     chatInput_disabled := chatInput_disabled s;
     sendBtn_disabled := sendBtn_disabled s;
     nextLessonBtn_disabled := nextLessonBtn_disabled s;
     replayLessonBtn_disabled := replayLessonBtn_disabled s;
     typingIndicator_display := typingIndicator_display s;
     lessonControls_display := lessonControls_display s;
     chatMessages := chatMessages s; lessonList := lessonList s;
     progressCurrent := progressCurrent s; progressTotal := progressTotal s;
     toast_textContent := toast_textContent s; toast_show := v;
     fetches := fetches s; notifications := notifications s;
     pending := pending s |}.

Definition set_fetches (v : list Request) (s : State) : State :=
  {| currentLessonPlan := currentLessonPlan s;
     currentLessonIndex := currentLessonIndex s;
     isFirstMessage := isFirstMessage s;
     chatInput_value := chatInput_value s;
     chatInput_disabled := chatInput_disabled s;
     sendBtn_disabled := sendBtn_disabled s;
     nextLessonBtn_disabled := nextLessonBtn_disabled s;
     replayLessonBtn_disabled := replayLessonBtn_disabled s;
     typingIndicator_display := typingIndicator_display s;
     lessonControls_display := lessonControls_display s;
     chatMessages := chatMessages s; lessonList := lessonList s;
     progressCurrent := progressCurrent s; progressTotal := progressTotal s;
     toast_textContent := toast_textContent s; toast_show := toast_show s;
     fetches := v; notifications := notifications s; pending := pending s |}.

Definition set_notifications (v : list str) (s : State) : State :=
  {| currentLessonPlan := currentLessonPlan s;
     currentLessonIndex := currentLessonIndex s;
     isFirstMessage := isFirstMessage s;
     chatInput_value := chatInput_value s;
     chatInput_disabled := chatInput_disabled s;
     sendBtn_disabled := sendBtn_disabled s;
     nextLessonBtn_disabled := nextLessonBtn_disabled s;
     replayLessonBtn_disabled := replayLessonBtn_disabled s;
     typingIndicator_display := typingIndicator_display s;
     lessonControls_display := lessonControls_display s;
     chatMessages := chatMessages s; lessonList := lessonList s;
     progressCurrent := progressCurrent s; progressTotal := progressTotal s;
     toast_textContent := toast_textContent s; toast_show := toast_show s;
     fetches := fetches s; notifications := v; pending := pending s |}.

Definition set_pending (v : list Task) (s : State) : State :=
  {| currentLessonPlan := currentLessonPlan s;
     currentLessonIndex := currentLessonIndex s;
     isFirstMessage := isFirstMessage s;
     chatInput_value := chatInput_value s;
     chatInput_disabled := chatInput_disabled s;
     sendBtn_disabled := sendBtn_disabled s;
     nextLessonBtn_disabled := nextLessonBtn_disabled s;
     replayLessonBtn_disabled := replayLessonBtn_disabled s;
     typingIndicator_display := typingIndicator_display s;
     lessonControls_display := lessonControls_display s;
     chatMessages := chatMessages s; lessonList := lessonList s;
     progressCurrent := progressCurrent s; progressTotal := progressTotal s;
     toast_textContent := toast_textContent s; toast_show := toast_show s;
     fetches := fetches s; notifications := notifications s; pending := v |}.

(** ** What the server and the clock supply *)

(** The body of a [POST /api/chat] response, with the fields of the
    interface table: [message], and the optional [lesson_plan],
    [is_finished] and [error]. *)
Record ChatData := mkChatData {
  message : str;
  lesson_plan : option (list str);
  is_finished : option bool;
  error : option str
}.

(** An entry of the history of [GET /api/session]; [timestamp] is the
    instant [new Date(msg.timestamp)] denotes. *)
Record HistoryEntry := mkHistoryEntry {
  sender : str;
  h_message : str;
  timestamp : N
}.

Record SessionData := mkSessionData {
  history : option (list HistoryEntry)
}.

(** How [await fetch(...)] followed by [await response.json()] ends: with
    the parsed body, or with a rejection of either promise (the transport
    failed or the body is not JSON). *)
Inductive Settled (A : Type) :=
| Fulfilled (data : A)
| Rejected.
Arguments Fulfilled {A} data.
Arguments Rejected {A}.

(** Truthiness of an optional string, as [if (data.error)] tests it: a
    missing field and the empty string are both falsy. *)
Definition truthy_str (o : option str) : bool :=
  match o with
  | Some (_ :: _) => true
  | _ => false
  end.

(** Truthiness of an optional boolean, as [if (data.is_finished)]. *)
Definition truthy_bool (o : option bool) : bool :=
  match o with
  | Some true => true
  | _ => false
  end.

(** [n + 1] and [n++] on a number holding an integer of at most [2^53],
    which is all a counter started at 0 can hold: the sum is exact below
    [2^53] and rounds back to [2^53] there. *)
Definition js_succ (n : N) : N :=
  if (n <? 2 ^ 53)%N then (n + 1)%N else n.

(** [forEach((x, index) => ...)] building one result per element. *)
Fixpoint mapi_from {A B : Type} (i : N) (f : N -> A -> B) (l : list A)
  : list B :=
  match l with
  | [] => []
  | x :: l' => f i x :: mapi_from (N.succ i) f l'
  end.

Definition mapi {A B : Type} (f : N -> A -> B) (l : list A) : list B :=
  mapi_from 0%N f l.

(** [chatMessages.querySelector('.welcome-message')] followed by
    [remove()] when it finds one: the first placeholder goes. *)
Fixpoint remove_welcome (l : list Node) : list Node :=
  match l with
  | [] => []
  | WelcomeMessage :: l' => l'
  | n :: l' => n :: remove_welcome l'
  end.

(** The class a lesson entry gets from its position: ['lesson-item'], with
    ['active'] added at the current index and ['completed'] below it. *)
Definition item_class (index current : N) : string :=
  if (index =? current)%N then "lesson-item active"
  else if (index <? current)%N then "lesson-item completed"
  else "lesson-item".

(** A clock for the sample runs: every instant reads the same. *)
Definition sample_clock (instant : N) : str := lit "10:00 AM".

(** ** The handlers *)

Section Controller.

(** [toLocaleTimeString('en-US', { hour: '2-digit', minute: '2-digit' })]
    of an instant: the text depends on the time zone of the browser. *)
Variable toLocaleTimeString : N -> str.

Definition getCurrentTime (now : N) : str := toLocaleTimeString now.

Definition formatTimestamp (timestamp : N) : str :=
  toLocaleTimeString timestamp.

Definition showTypingIndicator (s : State) : State :=
  set_typingIndicator_display DisplayFlex s.

Definition hideTypingIndicator (s : State) : State :=
  set_typingIndicator_display DisplayNone s.

(** [showToast]: the text, the [show] class, and a timer that takes the
    class away. *)
Definition showToast (msg : str) (s : State) : State :=
  let s := set_toast_textContent msg s in
  let s := set_toast_show true s in
  let s := set_notifications (notifications s ++ [msg]) s in
  set_pending (pending s ++ [TaskToastHide]) s.

Definition toast_timeout (s : State) : State := set_toast_show false s.

(** The three message templates.  Scrolling ([scrollToBottom]) only
    moves the viewport and is left out. *)
Definition user_view (now : N) (text : str) : MessageDiv :=
  {| className := "message user"; avatar := AvatarUser;
     bubble := escapeHtml text; time := Some (getCurrentTime now) |}.

Definition ai_view (now : N) (text : str) : MessageDiv :=
  {| className := "message ai"; avatar := AvatarRobot;
     bubble := formatMessage text; time := Some (getCurrentTime now) |}.

Definition system_view (text : str) : MessageDiv :=
  {| className := "message ai"; avatar := AvatarWarning;
     bubble := escapeHtml text; time := None |}.

Definition addUserMessage (now : N) (text : str) (s : State) : State :=
  let s := set_chatMessages (remove_welcome (chatMessages s)) s in
  set_chatMessages (chatMessages s ++ [Message (user_view now text)]) s.

Definition addAIMessage (now : N) (text : str) (s : State) : State :=
  set_chatMessages (chatMessages s ++ [Message (ai_view now text)]) s.

Definition addSystemMessage (text : str) (s : State) : State :=
  set_chatMessages (chatMessages s ++ [Message (system_view text)]) s.

(** [updateLessonProgress]: with a plan, the two counters and the class
    of every entry of the list follow the index.  The width of
    [progressFill] is a floating-point percentage and is left out. *)
Definition updateLessonProgress (s : State) : State :=
  if (0 <? List.length (currentLessonPlan s))%nat then
    let s := set_progressCurrent (Some (js_succ (currentLessonIndex s))) s in
    let s :=
      set_progressTotal
        (Some (N.of_nat (List.length (currentLessonPlan s)))) s in
    set_lessonList
      (mapi (fun index item =>
               {| item_className := item_class index (currentLessonIndex s);
                  lesson_number := lesson_number item;
                  lesson_text := lesson_text item |})
            (lessonList s)) s
  else s.

(** [updateLessonPlan]: the list is rebuilt from [lessons], one entry
    each, classed and numbered against the current index. *)
Definition render_lesson (current : N) (index : N) (lesson : str)
  : LessonItem :=
  {| item_className := item_class index current;
     lesson_number :=
       if (index <? current)%N then None else Some (js_succ index);
     lesson_text := escapeHtml lesson |}.

Definition updateLessonPlan (lessons : list str) (s : State) : State :=
  let s := set_lessonList [] s in
  let s :=
    set_lessonList
      (lessonList s ++ mapi (render_lesson (currentLessonIndex s)) lessons)
      s in
  updateLessonProgress s.

(** The text of the completion toast; it ends with U+1F389, the
    surrogate pair D83C DF89. *)
Definition completed_toast : str :=
  lit "Lesson plan completed! " ++ [55356; 57225]%N.

(** [fetch]: the request goes out and the rest of the handler waits. *)
Definition fetch (r : Request) (t : Task) (s : State) : State :=
  let s := set_fetches (fetches s ++ [r]) s in
  set_pending (pending s ++ [t]) s.

(** *** The submit handler of chatForm *)

(** Up to the [await]. *)
Definition submit_handler (now : N) (s : State) : State :=
  let message := trim (chatInput_value s) in
  match message with
  | [] => s
  | _ :: _ =>
      let s := addUserMessage now message s in
      let s := set_chatInput_value [] s in
      let s := set_chatInput_disabled true s in
      let s := set_sendBtn_disabled true s in
      let s := showTypingIndicator s in
      fetch (PostChat message) TaskSubmit s
  end.

(** From the [await] on: the [try] body or the [catch], then the
    [finally]. *)
Definition submit_settled (now : N) (o : Settled ChatData) (s : State)
  : State :=
  let s :=
    match o with
    | Fulfilled data =>
        let s := hideTypingIndicator s in
        match error data with
        | Some (c :: e) => addSystemMessage (lit "Error: " ++ c :: e) s
        | _ =>
            let s :=
              match lesson_plan data with
              | Some (l :: ls) =>
                  let s := set_currentLessonPlan (l :: ls) s in
                  updateLessonPlan (l :: ls) s
              | _ => s
              end in
            let s := addAIMessage now (message data) s in
            if truthy_bool (is_finished data) then
              let s := set_lessonControls_display DisplayNone s in
              showToast completed_toast s
            else if isFirstMessage s then
              let s := set_lessonControls_display DisplayFlex s in
              set_isFirstMessage false s
            else s
        end
    | Rejected =>
        let s := hideTypingIndicator s in
        addSystemMessage (lit "Failed to send message. Please try again.") s
    end in
  let s := set_chatInput_disabled false s in
  set_sendBtn_disabled false s.

(** *** sendControlMessage, behind the next and replay buttons *)

Definition sendControlMessage (action : str) (s : State) : State :=
  let s := set_chatInput_disabled true s in
  let s := set_sendBtn_disabled true s in
  let s := set_nextLessonBtn_disabled true s in
  let s := set_replayLessonBtn_disabled true s in
  let s := showTypingIndicator s in
  fetch (PostChat action) (TaskControl action) s.

Definition sendControlMessage_settled (action : str) (now : N)
  (o : Settled ChatData) (s : State) : State :=
  let s :=
    match o with
    | Fulfilled data =>
        let s := hideTypingIndicator s in
        match error data with
        | Some (c :: e) => addSystemMessage (lit "Error: " ++ c :: e) s
        | _ =>
            let s := addAIMessage now (message data) s in
            let s :=
              if str_eqb action (lit "next") then
                let s :=
                  set_currentLessonIndex (js_succ (currentLessonIndex s)) s in
                updateLessonProgress s
              else s in
            if truthy_bool (is_finished data) then
              let s := set_lessonControls_display DisplayNone s in
              showToast completed_toast s
            else s
        end
    | Rejected =>
        let s := hideTypingIndicator s in
        addSystemMessage
          (lit "Failed to process request. Please try again.") s
    end in
  let s := set_chatInput_disabled false s in
  let s := set_sendBtn_disabled false s in
  let s := set_nextLessonBtn_disabled false s in
  set_replayLessonBtn_disabled false s.

Definition nextLessonBtn_click : State -> State :=
  sendControlMessage (lit "next").

Definition replayLessonBtn_click : State -> State :=
  sendControlMessage (lit "replay").

(** *** loadSession *)

Definition history_view (msg : HistoryEntry) : MessageDiv :=
  if str_eqb (sender msg) (lit "user") then
    {| className := "message user"; avatar := AvatarUser;
       bubble := escapeHtml (h_message msg);
       time := Some (formatTimestamp (timestamp msg)) |}
  else
    {| className := "message ai"; avatar := AvatarRobot;
       bubble := formatMessage (h_message msg);
       time := Some (formatTimestamp (timestamp msg)) |}.

Definition loadSession (s : State) : State :=
  fetch GetSession TaskLoadSession s.

Definition loadSession_settled (o : Settled SessionData) (s : State)
  : State :=
  match o with
  | Fulfilled data =>
      match history data with
      | Some (m :: ms) =>
          let s := set_chatMessages (remove_welcome (chatMessages s)) s in
          let s :=
            fold_left
              (fun s msg =>
                 set_chatMessages
                   (chatMessages s ++ [Message (history_view msg)]) s)
              (m :: ms) s in
          let s := set_isFirstMessage false s in
          set_lessonControls_display DisplayFlex s
      | _ => s
      end
  | Rejected => s
  end.

(** *** The two session buttons *)

(** [clearSession] up to its [await]: the DELETE goes out.  The caller
    resumes at [t] however the request ends, because [clearSession]
    catches the rejection and only logs it. *)
Definition clearSession (t : Task) (s : State) : State :=
  fetch DeleteSession t s.

(** The click listeners; [confirmed] is what [confirm(...)] returns. *)
Definition newSessionBtn_click (confirmed : bool) (s : State) : State :=
  if confirmed then clearSession TaskNewSession s else s.

Definition clearHistoryBtn_click (confirmed : bool) (s : State) : State :=
  if confirmed then clearSession TaskClearHistory s else s.

(** The listener of [clearHistoryBtn] behind its [await]: the toast, and
    the timer of a second that reloads the page.  [o] is how the DELETE
    ended; nothing reads it. *)
Definition clearHistoryBtn_settled (o : Settled unit) (s : State) : State :=
  let s := showToast (lit "History cleared successfully") s in
  set_pending (pending s ++ [TaskReload]) s.

(** ** The event loop *)

Definition task_eqb (a b : Task) : bool :=
  match a, b with
  | TaskSubmit, TaskSubmit => true
  | TaskControl x, TaskControl y => str_eqb x y
  | TaskLoadSession, TaskLoadSession => true
  | TaskToastHide, TaskToastHide => true
  | TaskNewSession, TaskNewSession => true
  | TaskClearHistory, TaskClearHistory => true
  | TaskReload, TaskReload => true
  | _, _ => false
  end.

(** Takes one task [t] out of the tasks in flight, if there is one. *)
Fixpoint take_task (t : Task) (l : list Task) : option (list Task) :=
  match l with
  | [] => None
  | x :: l' =>
      if task_eqb t x then Some l'
      else match take_task t l' with
           | Some r => Some (x :: r)
           | None => None
           end
  end.

(** What can happen to the page: the user edits the input (by typing or
    through an example chip), submits the form (by the button or by
    Enter), clicks a lesson button or a session button, a request in
    flight settles, or the timer of a toast fires.  [now] is the reading
    of the clock when the handler runs.  The listeners are registered
    without a guard, so the model lets an event happen whatever the
    [disabled] flags and the [display] of the controls are; requests
    settle in any order.

    [location.reload()] ends the page session: the script starts afresh
    on a new page and nothing of this one is left.  The model follows one
    page session, so the two places that reload (the listener of
    [newSessionBtn] behind its [await], and the timer set by the listener
    of [clearHistoryBtn]) have no next state. *)
Inductive Event :=
| EvInput (value : str)
| EvSubmit (now : N)
| EvNextClick
| EvReplayClick
| EvChatSettled (t : Task) (now : N) (o : Settled ChatData)
| EvSessionSettled (o : Settled SessionData)
| EvToastTimeout
| EvNewSessionClick (confirmed : bool)
| EvClearHistoryClick (confirmed : bool)
| EvDeleteSettled (t : Task) (o : Settled unit).

(** The events of the two session buttons. *)
Definition is_session_event (e : Event) : bool :=
  match e with
  | EvNewSessionClick _ | EvClearHistoryClick _ | EvDeleteSettled _ _ => true
  | _ => false
  end.

Definition resume (t : Task) (k : State -> State) (s : State)
  : option State :=
  match take_task t (pending s) with
  | Some p => Some (k (set_pending p s))
  | None => None
  end.

(** One turn of the event loop; [None] when the event cannot happen in
    [s] (nothing of that kind is in flight) or ends the page session (the
    DELETE of a new session settles and the page reloads). *)
Definition dispatch (e : Event) (s : State) : option State :=
  match e with
  | EvInput value => Some (set_chatInput_value value s)
  | EvSubmit now => Some (submit_handler now s)
  | EvNextClick => Some (nextLessonBtn_click s)
  | EvReplayClick => Some (replayLessonBtn_click s)
  | EvChatSettled TaskSubmit now o =>
      resume TaskSubmit (submit_settled now o) s
  | EvChatSettled (TaskControl action) now o =>
      resume (TaskControl action)
             (sendControlMessage_settled action now o) s
  | EvChatSettled _ _ _ => None
  | EvSessionSettled o => resume TaskLoadSession (loadSession_settled o) s
  | EvToastTimeout => resume TaskToastHide toast_timeout s
  | EvNewSessionClick confirmed => Some (newSessionBtn_click confirmed s)
  | EvClearHistoryClick confirmed =>
      Some (clearHistoryBtn_click confirmed s)
  | EvDeleteSettled TaskClearHistory o =>
      resume TaskClearHistory (clearHistoryBtn_settled o) s
  | EvDeleteSettled _ _ => None
  end.

Fixpoint run (es : list Event) (s : State) : option State :=
  match es with
  | [] => Some s
  | e :: es' =>
      match dispatch e s with
      | Some s' => run es' s'
      | None => None
      end
  end.

(** The page as the script finds it.

    Modelled from the spec: the page markup is not among the sources; the
    transcript holds the welcome placeholder, the lesson list is empty
    and no inline style or [disabled] attribute is set. *)
Definition loaded_page : State :=
  {| currentLessonPlan := []; currentLessonIndex := 0;
     isFirstMessage := true;
     chatInput_value := []; chatInput_disabled := false;
     sendBtn_disabled := false; nextLessonBtn_disabled := false;
     replayLessonBtn_disabled := false;
     typingIndicator_display := DisplayUnset;
     lessonControls_display := DisplayUnset;
     chatMessages := [WelcomeMessage]; lessonList := [];
     progressCurrent := None; progressTotal := None;
     toast_textContent := []; toast_show := false;
     fetches := []; notifications := []; pending := [] |}.

(** The state after the [DOMContentLoaded] listener has run: the
    variables are initialised and [loadSession()] is under way. *)
Definition initial_state : State := loadSession loaded_page.

Inductive reachable : State -> Prop :=
| reachable_initial : reachable initial_state
| reachable_step s e s' :
    reachable s -> dispatch e s = Some s' -> reachable s'.

(** The message views of a transcript, in order, and the number of
    placeholders in it. *)
Definition message_views (l : list Node) : list MessageDiv :=
  flat_map (fun n => match n with Message m => [m] | WelcomeMessage => [] end)
           l.

Fixpoint count_welcome (l : list Node) : nat :=
  match l with
  | [] => 0
  | WelcomeMessage :: l' => S (count_welcome l')
  | Message _ :: l' => count_welcome l'
  end.

(** What the continuation of a chat request appends. *)
Definition submit_reply_view (now : N) (o : Settled ChatData)
  : MessageDiv :=
  match o with
  | Fulfilled data =>
      match error data with
      | Some (c :: e) => system_view (lit "Error: " ++ c :: e)
      | _ => ai_view now (message data)
      end
  | Rejected =>
      system_view (lit "Failed to send message. Please try again.")
  end.

Definition control_reply_view (now : N) (o : Settled ChatData)
  : MessageDiv :=
  match o with
  | Fulfilled data =>
      match error data with
      | Some (c :: e) => system_view (lit "Error: " ++ c :: e)
      | _ => ai_view now (message data)
      end
  | Rejected =>
      system_view (lit "Failed to process request. Please try again.")
  end.


(** An event that ends the first exchange: a reply to a submission
    without a truthy [error] and without a truthy [is_finished], or the
    arrival of a non-empty history. *)
Definition clears_first_flag (e : Event) : bool :=
  match e with
  | EvChatSettled TaskSubmit _ (Fulfilled data) =>
      negb (truthy_str (error data)) && negb (truthy_bool (is_finished data))
  | EvSessionSettled (Fulfilled data) =>
      match history data with
      | Some (_ :: _) => true
      | _ => false
      end
  | _ => false
  end.

(** ** Sample runs *)

Definition no_history : Settled SessionData :=
  Fulfilled {| history := None |}.

Definition plain_reply : ChatData :=
  {| message := lit "Here we go."; lesson_plan := None;
     is_finished := None; error := None |}.

Definition plan_reply : ChatData :=
  {| message := lit "Here is your plan.";
     lesson_plan := Some [lit "A"; lit "B"];
     is_finished := None; error := None |}.

(** A reply whose [error] field is present and empty. *)
Definition empty_error_reply : ChatData :=
  {| message := lit "Hello"; lesson_plan := Some [lit "A"];
     is_finished := None; error := Some [] |}.

Definition error_reply : ChatData :=
  {| message := []; lesson_plan := None; is_finished := None;
     error := Some (lit "quota exceeded") |}.

Definition finished_reply : ChatData :=
  {| message := lit "Well done."; lesson_plan := None;
     is_finished := Some true; error := None |}.

(** The session request settles without a history, the user types and
    submits. *)
Definition submit_trace : list Event :=
  [EvSessionSettled no_history; EvInput (lit " teach me "); EvSubmit 0].

(** The plan of two lessons arrives, then two clicks on next are both
    answered. *)
Definition overrun_trace : list Event :=
  submit_trace
  ++ [EvChatSettled TaskSubmit 1 (Fulfilled plan_reply);
      EvNextClick;
      EvChatSettled (TaskControl (lit "next")) 2 (Fulfilled plain_reply);
      EvNextClick;
      EvChatSettled (TaskControl (lit "next")) 3 (Fulfilled plain_reply)].

(** The state a run from the initial state ends in. *)
Definition after (es : list Event) : State :=
  match run es initial_state with
  | Some s => s
  | None => initial_state
  end.

Definition next_settled : Event :=
  EvChatSettled (TaskControl (lit "next")) 2 (Fulfilled plain_reply).

Definition awaiting_next : list Event :=
  submit_trace
  ++ [EvChatSettled TaskSubmit 1 (Fulfilled plan_reply); EvNextClick].

Definition user_entry : HistoryEntry :=
  {| sender := lit "user"; h_message := lit "hi"; timestamp := 0 |}.

(** A history entry whose sender is 'system'. *)
Definition system_entry : HistoryEntry :=
  {| sender := lit "system"; h_message := lit "*warn*"; timestamp := 0 |}.

Definition system_history_trace : list Event :=
  [EvSessionSettled (Fulfilled {| history := Some [system_entry] |})].



(** The session request settles without a history, the user confirms the
    clearing of the history and the DELETE settles. *)
Definition clear_history_trace : list Event :=
  [EvSessionSettled no_history; EvClearHistoryClick true;
   EvDeleteSettled TaskClearHistory (Fulfilled tt)].


(** ** The rest of the chat page *)




(** How often the unit [c] occurs in [s]. *)
Definition count_unit (c : code_unit) (s : str) : nat :=
  count_occ N.eq_dec s c.

(** The lesson sidebar and its toggle: the [collapsed] class of
    [lessonSidebar] and the text of the toggle icon. *)
Record Sidebar := mkSidebar {
  lessonSidebar_collapsed : bool;
  toggle_icon : str
}.

(** U+25B6 and U+25C0, the two arrows of the toggle. *)
Definition arrow_right : str := [9654%N].
Definition arrow_left : str := [9664%N].

Definition sidebarToggle_click (b : Sidebar) : Sidebar :=
  let collapsed := negb (lessonSidebar_collapsed b) in
  {| lessonSidebar_collapsed := collapsed;
     toggle_icon := if collapsed then arrow_right else arrow_left |}.

(** The user menu: the [active] class of the button and the [show] class
    of the dropdown. *)
Record UserMenu := mkUserMenu {
  userMenuBtn_active : bool;
  userDropdown_show : bool
}.

(** The click listener of the button; it stops the propagation, so the
    listener of the document does not see the click. *)
Definition userMenuBtn_click (m : UserMenu) : UserMenu :=
  {| userMenuBtn_active := negb (userMenuBtn_active m);
     userDropdown_show := negb (userDropdown_show m) |}.

(** The click listener of the document, for a click that reaches it;
    [in_button] and [in_dropdown] are [userMenuBtn.contains(e.target)] and
    [userDropdown.contains(e.target)]. *)
Definition document_click (in_button in_dropdown : bool) (m : UserMenu)
  : UserMenu :=
  if negb in_button && negb in_dropdown
  then {| userMenuBtn_active := false; userDropdown_show := false |}
  else m.

Inductive MenuEvent :=
| MenuButtonClick
| DocumentClick (in_button in_dropdown : bool).

Definition menu_step (m : UserMenu) (e : MenuEvent) : UserMenu :=
  match e with
  | MenuButtonClick => userMenuBtn_click m
  | DocumentClick in_button in_dropdown =>
      document_click in_button in_dropdown m
  end.

(** ** Invariants of the page *)

(** A chat request is in flight. *)
Definition chat_in_flight (s : State) : Prop :=
  exists t, In t (pending s)
            /\ (t = TaskSubmit \/ exists action, t = TaskControl action).

(** The transcript is the placeholder followed by AI and system views
    only, or views without a placeholder. *)
Definition transcript_shape (l : list Node) : Prop :=
  exists views,
    (l = WelcomeMessage :: map Message views
     /\ Forall (fun m => className m = "message ai"%string) views)
    \/ l = map Message views.

(** The two counters of the progress bar are empty without a plan and
    show the index plus one and the length of the plan with one. *)
Definition progress_in_sync (s : State) : Prop :=
  match currentLessonPlan s with
  | [] => progressCurrent s = None /\ progressTotal s = None
  | _ :: _ =>
      progressCurrent s = Some (js_succ (currentLessonIndex s))
      /\ progressTotal s
         = Some (N.of_nat (List.length (currentLessonPlan s)))
  end.

(** The number cells are those of a rendering of the plan at the index
    [rendered_at]: none below it, the position plus one from it on. *)
Definition numbered_at (rendered_at : N) (s : State) : Prop :=
  map lesson_number (lessonList s)
  = mapi (fun index _ =>
            if (index <? rendered_at)%N then None
            else Some (js_succ index))
         (currentLessonPlan s).

(** The fields of a settled chat request. *)
Definition message_of (o : Settled ChatData) : str :=
  match o with Fulfilled data => message data | Rejected => [] end.

Definition finished_of (o : Settled ChatData) : option bool :=
  match o with Fulfilled data => is_finished data | Rejected => None end.

Definition error_of (o : Settled ChatData) : option str :=
  match o with Fulfilled data => error data | Rejected => None end.

(** ** Properties *)

(** Unfolds the handlers down to the record of the resulting state. *)
Ltac unfold_handlers :=
  unfold submit_handler, submit_settled, sendControlMessage_settled,
    nextLessonBtn_click, replayLessonBtn_click, sendControlMessage,
    loadSession, fetch, showToast, toast_timeout, addUserMessage,
    addAIMessage, addSystemMessage, updateLessonPlan,
    updateLessonProgress, showTypingIndicator, hideTypingIndicator;
  cbn.

(** Splits on whatever the goal still branches on. *)
Ltac break_match :=
  match goal with
  | |- context [match ?x with _ => _ end] => destruct x eqn:?
  end.

Ltac settle :=
  unfold_handlers; repeat (break_match; cbn); try reflexivity.

(** *** The text helpers on examples *)

Example formatMessage_bold_and_em :
  formatMessage (lit "**bold** and *em*")
  = lit "<strong>bold</strong> and <em>em</em>".
Proof. vm_compute. reflexivity. Qed.

(** The group of a match may itself start with an asterisk, and the
    second pass then matches across the tag the first one wrote. *)
Example formatMessage_crossing :
  formatMessage (lit "***a** *b") = lit "<strong><em>a</strong> </em>b".
Proof. vm_compute. reflexivity. Qed.

(** A newline between the delimiters keeps them literal. *)
Example formatMessage_newline :
  formatMessage ([42; 97; 10; 98; 42]%N) = lit "*a<br>b*".
Proof. vm_compute. reflexivity. Qed.

Example trim_spaces : trim (lit "  hi there  ") = lit "hi there".
Proof. vm_compute. reflexivity. Qed.

(** *** Transcript helpers *)

Lemma message_views_app (a b : list Node) :
  message_views (a ++ b) = message_views a ++ message_views b.
Proof. unfold message_views. apply flat_map_app. Qed.

Lemma message_views_remove_welcome (l : list Node) :
  message_views (remove_welcome l) = message_views l.
Proof.
  induction l as [|[|m] l IH]; cbn; [reflexivity .. |].
  unfold message_views in *. cbn. now rewrite IH.
Qed.

Lemma count_welcome_app (a b : list Node) :
  count_welcome (a ++ b) = count_welcome a + count_welcome b.
Proof. induction a as [|[|m] a IH]; cbn; auto. Qed.

Lemma count_welcome_remove (l : list Node) :
  count_welcome (remove_welcome l) = Nat.pred (count_welcome l).
Proof. induction l as [|[|m] l IH]; cbn; auto. Qed.

Lemma count_welcome_messages (ms : list MessageDiv) :
  count_welcome (map Message ms) = 0.
Proof. induction ms; cbn; auto. Qed.

(** The loop of [loadSession] appends one view per entry, in order. *)
Lemma replay_history (h : list HistoryEntry) (s : State) :
  fold_left
    (fun s msg =>
       set_chatMessages (chatMessages s ++ [Message (history_view msg)]) s)
    h s
  = set_chatMessages
      (chatMessages s ++ map Message (map history_view h)) s.
Proof.
  revert s. induction h as [|m h IH]; intros s; cbn.
  - rewrite app_nil_r. now destruct s.
  - rewrite IH. cbn. now rewrite <- app_assoc.
Qed.

Lemma submit_settled_transcript now o s :
  chatMessages (submit_settled now o s)
  = chatMessages s ++ [Message (submit_reply_view now o)].
Proof. destruct o as [data|]; settle. Qed.

Lemma control_settled_transcript action now o s :
  chatMessages (sendControlMessage_settled action now o s)
  = chatMessages s ++ [Message (control_reply_view now o)].
Proof. destruct o as [data|]; settle. Qed.

Lemma take_task_pending t (k : State -> State) s s' :
  resume t k s = Some s' ->
  exists p, s' = k (set_pending p s).
Proof.
  unfold resume. destruct (take_task t (pending s)) as [p|]; [|discriminate].
  intros [= <-]. now exists p.
Qed.

Lemma str_eqb_eq (a b : str) : str_eqb a b = true -> a = b.
Proof. unfold str_eqb. now destruct (list_eq_dec N.eq_dec a b). Qed.

(** *** The controls after an action *)

(** C3: when the continuation of the submit handler or of a control
    action has run, however the request ended, input and send (and, for a
    control action, next and replay) are enabled again and the typing
    indicator is hidden; these are the controls the action disabled and
    the indicator it showed when it started. *)
Theorem controls_restored_after_action :
  forall (now : N) (o : Settled ChatData) (s : State),
    (let s' := submit_settled now o s in
     chatInput_disabled s' = false /\ sendBtn_disabled s' = false
     /\ typingIndicator_display s' = DisplayNone)
    /\ (forall action,
          let s' := sendControlMessage_settled action now o s in
          chatInput_disabled s' = false /\ sendBtn_disabled s' = false
          /\ nextLessonBtn_disabled s' = false
          /\ replayLessonBtn_disabled s' = false
          /\ typingIndicator_display s' = DisplayNone)
    /\ (forall c m,
          trim (chatInput_value s) = c :: m ->
          let s0 := submit_handler now s in
          chatInput_disabled s0 = true /\ sendBtn_disabled s0 = true
          /\ typingIndicator_display s0 = DisplayFlex)
    /\ (forall action,
          let s0 := sendControlMessage action s in
          chatInput_disabled s0 = true /\ sendBtn_disabled s0 = true
          /\ nextLessonBtn_disabled s0 = true
          /\ replayLessonBtn_disabled s0 = true
          /\ typingIndicator_display s0 = DisplayFlex).
Proof.
  intros now o s. repeat split; try solve [settle].
  all: unfold submit_handler;
    match goal with H : trim _ = _ |- _ => rewrite H end; reflexivity.
Qed.

(** *** Failures *)


(** *** Completion and the first exchange *)

Lemma dispatch_keeps_first_flag e s s' :
  dispatch e s = Some s' ->
  clears_first_flag e = false ->
  isFirstMessage s' = isFirstMessage s.
Proof.
  intros Hd Hc.
  destruct e as [v|now| | |t now o|o| |[|]|[|]|t o]; cbn in Hd.
  - now injection Hd as <-.
  - injection Hd as <-. unfold submit_handler.
    now destruct (trim (chatInput_value s)).
  - now injection Hd as <-.
  - now injection Hd as <-.
  - destruct t as [|action| | | | |]; try discriminate;
      apply take_task_pending in Hd as [p ->].
    + destruct o as [[msg plan fin err]|]; [|reflexivity].
      cbn in Hc.
      destruct err as [[|c e]|]; destruct plan as [[|l ls]|];
        destruct fin as [[|]|]; try discriminate Hc;
        unfold_handlers; repeat (break_match; cbn); reflexivity.
    + destruct o as [data|]; settle.
  - apply take_task_pending in Hd as [p ->].
    destruct o as [[[[|m ms]|]]|]; try reflexivity. discriminate Hc.
  - now apply take_task_pending in Hd as [p ->].
  - now injection Hd as <-.
  - now injection Hd as <-.
  - now injection Hd as <-.
  - now injection Hd as <-.
  - destruct t; try discriminate.
    now apply take_task_pending in Hd as [p ->].
Qed.

Lemma run_keeps_first_flag es : forall s s',
  run es s = Some s' ->
  forallb (fun e => negb (clears_first_flag e)) es = true ->
  isFirstMessage s' = isFirstMessage s.
Proof.
  induction es as [|e es IH]; cbn; intros s s' Hr Hall.
  - now injection Hr as <-.
  - destruct (dispatch e s) as [s1|] eqn:Hd; [|discriminate].
    apply andb_prop in Hall as [He Hall].
    rewrite (IH _ _ Hr Hall). apply (dispatch_keeps_first_flag e); [exact Hd|].
    now destruct (clears_first_flag e).
Qed.

(** C8: a reply without a truthy [error] whose [is_finished] is true
    hides the lesson controls and shows the completion toast once, for
    the submit handler and for either control action: the toast element
    gets the text ['Lesson plan completed! '] with U+1F389 and the [show]
    class, one timer is started to take the class away, and one
    notification is recorded.  A reply to the submit handler without a
    truthy [error] and without a truthy [is_finished] shows no toast and,
    arriving while [isFirstMessage] holds, reveals the lesson controls and
    clears the flag.  [isFirstMessage] does hold at the first such reply:
    it is true after every run from the initial state in which no such
    reply and no history has arrived yet. *)
Theorem finished_reply_hides_controls_once :
  forall (now : N) (data : ChatData) (s : State),
    truthy_str (error data) = false ->
    (is_finished data = Some true ->
     (let s' := submit_settled now (Fulfilled data) s in
      lessonControls_display s' = DisplayNone
      /\ notifications s' = notifications s ++ [completed_toast]
      /\ toast_textContent s'
         = lit "Lesson plan completed! " ++ [55356; 57225]%N
      /\ toast_show s' = true
      /\ pending s' = pending s ++ [TaskToastHide])
     /\ (forall action,
           let s' :=
             sendControlMessage_settled action now (Fulfilled data) s in
           lessonControls_display s' = DisplayNone
           /\ notifications s' = notifications s ++ [completed_toast]
           /\ toast_textContent s'
              = lit "Lesson plan completed! " ++ [55356; 57225]%N
           /\ toast_show s' = true
           /\ pending s' = pending s ++ [TaskToastHide]))
    /\ (truthy_bool (is_finished data) = false ->
        (let s' := submit_settled now (Fulfilled data) s in
         notifications s' = notifications s
         /\ toast_textContent s' = toast_textContent s
         /\ toast_show s' = toast_show s
         /\ pending s' = pending s)
        /\ (isFirstMessage s = true ->
            let s' := submit_settled now (Fulfilled data) s in
            lessonControls_display s' = DisplayFlex
            /\ isFirstMessage s' = false))
    /\ (forall es,
          run es initial_state = Some s ->
          forallb (fun e => negb (clears_first_flag e)) es = true ->
          isFirstMessage s = true).
Proof.
  intros now data s Herr. split; [|split].
  - intros Hfin. repeat split; unfold_handlers; rewrite Hfin; cbn;
      destruct (error data) as [[|c e]|]; try discriminate Herr; cbn;
      repeat (break_match; cbn); reflexivity.
  - intros Hfin. split.
    + cbv zeta. unfold_handlers. rewrite Hfin.
      destruct (error data) as [[|c e]|]; try discriminate Herr; cbn.
      all: destruct (lesson_plan data) as [[|l ls]|]; cbn;
        repeat (break_match; cbn); repeat split; reflexivity.
    + intros Hfirst. cbv zeta. unfold_handlers. rewrite Hfin.
      destruct (error data) as [[|c e]|]; try discriminate Herr; cbn.
      all: destruct (lesson_plan data) as [[|l ls]|]; cbn;
        repeat (break_match; cbn); try discriminate; auto.
  - intros es Hr Hall. now rewrite (run_keeps_first_flag es _ _ Hr Hall).
Qed.

(** *** Application-level errors *)

(** C4, as amended: a reply whose [error] field is a non-empty string is
    surfaced as one system message carrying ['Error: '] followed by the
    error text; that message is not the one of a transport failure; and
    the lesson plan, the lesson index, the first-message flag, the lesson
    list, the lesson controls and the toasts stay as they were. *)
Theorem application_error_is_surfaced :
  forall (now : N) (data : ChatData) (s : State) (c : code_unit) (e : str),
    error data = Some (c :: e) ->
    let view := system_view (lit "Error: " ++ c :: e) in
    (let s' := submit_settled now (Fulfilled data) s in
     chatMessages s' = chatMessages s ++ [Message view]
     /\ currentLessonPlan s' = currentLessonPlan s
     /\ currentLessonIndex s' = currentLessonIndex s
     /\ isFirstMessage s' = isFirstMessage s
     /\ lessonList s' = lessonList s
     /\ lessonControls_display s' = lessonControls_display s
     /\ notifications s' = notifications s)
    /\ (forall action,
          let s' :=
            sendControlMessage_settled action now (Fulfilled data) s in
          chatMessages s' = chatMessages s ++ [Message view]
          /\ currentLessonPlan s' = currentLessonPlan s
          /\ currentLessonIndex s' = currentLessonIndex s
          /\ isFirstMessage s' = isFirstMessage s
          /\ lessonList s' = lessonList s
          /\ lessonControls_display s' = lessonControls_display s
          /\ notifications s' = notifications s)
    /\ view
       <> system_view (lit "Failed to send message. Please try again.")
    /\ view
       <> system_view (lit "Failed to process request. Please try again.").
Proof.
  intros now data s c e Herr view. repeat split.
  1-14: unfold_handlers; rewrite Herr; reflexivity.
  all: intros H; apply (f_equal bubble) in H; cbn in H; discriminate H.
Qed.

(** *** Submitting a message *)

Lemma trim_start_nil (v : str) :
  trim_start v = [] <-> forallb is_white_space v = true.
Proof.
  induction v as [|c v IH]; cbn; [tauto|].
  destruct (is_white_space c); cbn; [exact IH|].
  split; discriminate.
Qed.

Lemma trim_start_head (v r : str) (c : code_unit) :
  trim_start v = c :: r -> is_white_space c = false.
Proof.
  induction v as [|x v IH]; cbn; [discriminate|].
  destruct (is_white_space x) eqn:E; [exact IH|].
  now intros [= <- _].
Qed.

(** The trimmed text is empty exactly when the text holds nothing but
    white space. *)
Lemma trim_nil (v : str) :
  trim v = [] <-> forallb is_white_space v = true.
Proof.
  rewrite <- trim_start_nil. unfold trim, trim_end. split.
  - intros H. apply (f_equal (@rev _)) in H. rewrite rev_involutive in H.
    cbn in H. apply trim_start_nil in H. rewrite forallb_forall in H.
    destruct (trim_start v) as [|c r] eqn:E; [reflexivity|].
    apply trim_start_head in E.
    rewrite (H c) in E; [discriminate|]. apply in_rev.
    rewrite rev_involutive. now left.
  - intros ->. reflexivity.
Qed.

Lemma loadSession_settled_history m ms s :
  loadSession_settled (Fulfilled {| history := Some (m :: ms) |}) s
  = set_lessonControls_display DisplayFlex
      (set_isFirstMessage false
         (set_chatMessages
            (remove_welcome (chatMessages s)
             ++ map Message (map history_view (m :: ms))) s)).
Proof.
  cbv beta iota zeta delta [loadSession_settled history].
  rewrite replay_history. reflexivity.
Qed.

(** What an event of the session buttons does: nothing (the confirmation
    was declined), or it sends the DELETE, or it is the listener of
    [clearHistoryBtn] resuming. *)
Lemma session_event_cases e s s' :
  is_session_event e = true ->
  dispatch e s = Some s' ->
  s' = s
  \/ (exists t, s' = fetch DeleteSession t s)
  \/ (exists o p,
        take_task TaskClearHistory (pending s) = Some p
        /\ s' = clearHistoryBtn_settled o (set_pending p s)).
Proof.
  destruct e as [v|now| | |t now o|o| |[|]|[|]|t o]; try discriminate;
    intros _ Hd; cbn in Hd.
  - injection Hd as <-. right. left. now exists TaskNewSession.
  - injection Hd as <-. now left.
  - injection Hd as <-. right. left. now exists TaskClearHistory.
  - injection Hd as <-. now left.
  - destruct t; try discriminate. unfold resume in Hd.
    destruct (take_task TaskClearHistory (pending s)) as [p|] eqn:Hp;
      [|discriminate].
    injection Hd as <-. right. right. now exists o, p.
Qed.

(** No turn of the event loop takes a message view out of the
    transcript or reorders the views. *)
Lemma dispatch_append_only e s s' :
  dispatch e s = Some s' ->
  exists l,
    message_views (chatMessages s')
    = message_views (chatMessages s) ++ l.
Proof.
  destruct (is_session_event e) eqn:Es.
  { intros Hd.
    destruct (session_event_cases e s s' Es Hd)
      as [->|[(t & ->)|(o & p & _ & ->)]];
      exists []; cbn; now rewrite app_nil_r. }
  destruct e as [v|now| | |t now o|o| |c|c|t' o']; try discriminate Es; cbn.
  - intros [= <-]. exists []. cbn. now rewrite app_nil_r.
  - intros [= <-]. unfold submit_handler.
    destruct (trim (chatInput_value s)) as [|c m].
    + exists []. now rewrite app_nil_r.
    + cbn. rewrite message_views_app, message_views_remove_welcome.
      eauto.
  - intros [= <-]. exists []. cbn. now rewrite app_nil_r.
  - intros [= <-]. exists []. cbn. now rewrite app_nil_r.
  - destruct t as [|action| | | | |]; try discriminate; intros H;
      apply take_task_pending in H as [p ->].
    + rewrite submit_settled_transcript, message_views_app. eauto.
    + rewrite control_settled_transcript, message_views_app. eauto.
  - intros H. apply take_task_pending in H as [p ->].
    destruct o as [[[[|m ms]|]]|];
      [| | |]; try (cbn; exists []; now rewrite app_nil_r).
    rewrite loadSession_settled_history.
    cbv beta iota delta [chatMessages set_lessonControls_display
                           set_isFirstMessage set_chatMessages
                           set_pending].
    rewrite message_views_app, message_views_remove_welcome. eauto.
  - intros H. apply take_task_pending in H as [p ->].
    exists []. cbn. now rewrite app_nil_r.
Qed.

(** C2, as amended: a submission whose text is empty or all white space
    changes nothing, so it appends no message and sends no request; any
    other appends exactly the user view of the trimmed text (taking the
    placeholder away) and only then sends the request; the continuation
    appends exactly one further view, a system view when the reply
    carries a non-empty [error] or the request was rejected and the AI
    view of the reply otherwise; and no later turn of the event loop
    removes a view from the transcript. *)
Theorem submit_appends_user_then_reply :
  forall (now : N) (s : State),
    (forallb is_white_space (chatInput_value s) = true ->
     submit_handler now s = s)
    /\ (forallb is_white_space (chatInput_value s) = false ->
        exists c m s0,
          trim (chatInput_value s) = c :: m
          /\ submit_handler now s
             = fetch (PostChat (c :: m)) TaskSubmit s0
          /\ chatMessages s0
             = remove_welcome (chatMessages s)
               ++ [Message (user_view now (c :: m))]
          /\ chatMessages (submit_handler now s) = chatMessages s0
          /\ fetches s0 = fetches s
          /\ pending s0 = pending s)
    /\ (forall o,
          chatMessages (submit_settled now o s)
          = chatMessages s ++ [Message (submit_reply_view now o)])
    /\ (forall e s',
          dispatch e s = Some s' ->
          exists l,
            message_views (chatMessages s')
            = message_views (chatMessages s) ++ l).
Proof.
  intros now s. repeat split.
  - intros H. apply trim_nil in H. unfold submit_handler. now rewrite H.
  - intros H. destruct (trim (chatInput_value s)) as [|c m] eqn:E.
    + apply trim_nil in E. congruence.
    + exists c, m. eexists. split; [reflexivity|].
      unfold submit_handler. rewrite E. split; [reflexivity|].
      repeat split.
  - intros o. apply submit_settled_transcript.
  - intros e s'. apply dispatch_append_only.
Qed.

(** *** Restoring a session *)

(** C9: when the session request brings a history of at least one entry,
    the first placeholder is taken out of the transcript and one view per
    entry is appended in the order of the history, a user view for an
    entry whose sender is ['user'] and an AI view for any other;
    [isFirstMessage] becomes false and the lesson controls are shown.
    With an empty or missing history, or a rejected request, the state
    is unchanged. *)
Theorem loadSession_replays_history :
  forall (s : State),
    (forall m ms,
       let h := m :: ms in
       let s' :=
         loadSession_settled (Fulfilled {| history := Some h |}) s in
       chatMessages s'
       = remove_welcome (chatMessages s)
         ++ map Message (map history_view h)
       /\ List.length (map Message (map history_view h)) = List.length h
       /\ count_welcome (chatMessages s')
          = Nat.pred (count_welcome (chatMessages s))
       /\ isFirstMessage s' = false
       /\ lessonControls_display s' = DisplayFlex)
    /\ (forall msg,
          (sender msg = lit "user" ->
           history_view msg
           = {| className := "message user"; avatar := AvatarUser;
                bubble := escapeHtml (h_message msg);
                time := Some (formatTimestamp (timestamp msg)) |})
          /\ (sender msg <> lit "user" ->
              history_view msg
              = {| className := "message ai"; avatar := AvatarRobot;
                   bubble := formatMessage (h_message msg);
                   time := Some (formatTimestamp (timestamp msg)) |}))
    /\ loadSession_settled (Fulfilled {| history := Some [] |}) s = s
    /\ loadSession_settled (Fulfilled {| history := None |}) s = s
    /\ loadSession_settled Rejected s = s.
Proof.
  intros s. split; [|repeat split].
  - intros m ms h s'. subst h s'. rewrite loadSession_settled_history.
    cbv beta iota delta [chatMessages set_lessonControls_display
                           set_isFirstMessage set_chatMessages].
    repeat split.
    + now rewrite !length_map.
    + rewrite count_welcome_app, count_welcome_remove,
        count_welcome_messages. lia.
  - intros H. unfold history_view. rewrite H. reflexivity.
  - intros H. unfold history_view, str_eqb.
    destruct (list_eq_dec N.eq_dec (sender msg) (lit "user")); tauto.
Qed.

(** *** The welcome placeholder *)

(** C10: [addUserMessage] takes the first placeholder out and appends
    its view; [addAIMessage] and [addSystemMessage] only append theirs,
    so a placeholder that is present stays; none of the three touches
    anything but the transcript; and a turn of the event loop that leaves
    fewer placeholders behind is a submission of a text that is not
    blank or the arrival of a history that is not empty. *)
Theorem welcome_removed_only_by_user_message_or_history :
  forall (now : N) (text : str) (s : State),
    addUserMessage now text s
    = set_chatMessages
        (remove_welcome (chatMessages s)
         ++ [Message (user_view now text)]) s
    /\ addAIMessage now text s
       = set_chatMessages
           (chatMessages s ++ [Message (ai_view now text)]) s
    /\ addSystemMessage text s
       = set_chatMessages
           (chatMessages s ++ [Message (system_view text)]) s
    /\ message_views (chatMessages (addUserMessage now text s))
       = message_views (chatMessages s) ++ [user_view now text]
    /\ (In WelcomeMessage (chatMessages s) ->
        In WelcomeMessage (chatMessages (addAIMessage now text s))
        /\ In WelcomeMessage (chatMessages (addSystemMessage text s)))
    /\ count_welcome (chatMessages (addAIMessage now text s))
       = count_welcome (chatMessages s)
    /\ count_welcome (chatMessages (addSystemMessage text s))
       = count_welcome (chatMessages s)
    /\ (forall e s',
          dispatch e s = Some s' ->
          count_welcome (chatMessages s') < count_welcome (chatMessages s) ->
          (exists now', e = EvSubmit now'
                        /\ trim (chatInput_value s) <> [])
          \/ (exists m ms,
                e = EvSessionSettled
                      (Fulfilled {| history := Some (m :: ms) |}))).
Proof.
  intros now text s. repeat split.
  - cbn. rewrite message_views_app, message_views_remove_welcome.
    reflexivity.
  - cbn. apply in_or_app. now left.
  - cbn. apply in_or_app. now left.
  - cbn. rewrite count_welcome_app. cbn. lia.
  - cbn. rewrite count_welcome_app. cbn. lia.
  - intros e s' Hd Hlt.
    destruct (is_session_event e) eqn:Es.
    { destruct (session_event_cases e s s' Es Hd)
        as [->|[(t & ->)|(o & p & _ & ->)]]; cbn in Hlt; lia. }
    destruct e as [v|now'| | |t now' o|o| |c|c|t' o'];
      try discriminate Es; cbn in Hd.
    + injection Hd as <-. cbn in Hlt. lia.
    + left. exists now'. split; [reflexivity|]. intros E.
      injection Hd as <-. unfold submit_handler in Hlt.
      rewrite E in Hlt. lia.
    + injection Hd as <-. cbn in Hlt. lia.
    + injection Hd as <-. cbn in Hlt. lia.
    + destruct t as [|action| | | | |]; try discriminate;
        apply take_task_pending in Hd as [p ->].
      * rewrite submit_settled_transcript, count_welcome_app in Hlt.
        cbn in Hlt. lia.
      * rewrite control_settled_transcript, count_welcome_app in Hlt.
        cbn in Hlt. lia.
    + apply take_task_pending in Hd as [p ->].
      destruct o as [[[[|m ms]|]]|]; try (cbn in Hlt; lia).
      right. now exists m, ms.
    + apply take_task_pending in Hd as [p ->]. cbn in Hlt. lia.
Qed.

(** *** The lesson sidebar *)

Lemma str_eqb_refl (a : str) : str_eqb a a = true.
Proof. unfold str_eqb. now destruct (list_eq_dec N.eq_dec a a). Qed.











(** *** The lesson index *)

Lemma js_succ_bounds (n : N) : (n <= js_succ n <= n + 1)%N.
Proof. unfold js_succ. destruct (n <? 2 ^ 53)%N; lia. Qed.

Lemma submit_handler_index now s :
  currentLessonIndex (submit_handler now s) = currentLessonIndex s.
Proof. settle. Qed.

Lemma submit_settled_index now o s :
  currentLessonIndex (submit_settled now o s) = currentLessonIndex s.
Proof. destruct o as [data|]; settle. Qed.

Lemma control_settled_index action now o s :
  currentLessonIndex (sendControlMessage_settled action now o s)
  = match o with
    | Fulfilled data =>
        if truthy_str (error data) then currentLessonIndex s
        else if str_eqb action (lit "next")
             then js_succ (currentLessonIndex s)
             else currentLessonIndex s
    | Rejected => currentLessonIndex s
    end.
Proof. destruct o as [data|]; settle. Qed.

Lemma loadSession_settled_index o s :
  currentLessonIndex (loadSession_settled o s) = currentLessonIndex s.
Proof.
  destruct o as [[[[|m ms]|]]|]; try reflexivity.
  now rewrite loadSession_settled_history.
Qed.

Lemma run_reachable es : forall s s',
  reachable s -> run es s = Some s' -> reachable s'.
Proof.
  induction es as [|e es IH]; cbn; intros s s' Hr H.
  - now injection H as <-.
  - destruct (dispatch e s) as [s1|] eqn:E; [|discriminate].
    eapply IH; [|exact H]. eapply reachable_step; eauto.
  Qed.

(** C1, as amended: no turn of the event loop lowers
    [currentLessonIndex]; a turn raises it by at most one, and only the
    continuation of a 'next' control action whose reply carries no
    truthy [error] changes it; that continuation raises it whatever the
    length of the plan. *)
Theorem lesson_index_moves_only_on_next :
  forall (s : State),
    (forall e s',
       dispatch e s = Some s' ->
       (currentLessonIndex s <= currentLessonIndex s')%N
       /\ (currentLessonIndex s' <= currentLessonIndex s + 1)%N
       /\ (currentLessonIndex s' <> currentLessonIndex s ->
           exists now data,
             e = EvChatSettled (TaskControl (lit "next")) now
                               (Fulfilled data)
             /\ truthy_str (error data) = false))
    /\ (forall now data,
          truthy_str (error data) = false ->
          currentLessonIndex
            (sendControlMessage_settled (lit "next") now (Fulfilled data) s)
          = js_succ (currentLessonIndex s)).
Proof.
  intros s. split.
  - intros e s' Hd.
    assert (Hsame : currentLessonIndex s' = currentLessonIndex s ->
                    (currentLessonIndex s <= currentLessonIndex s')%N
                    /\ (currentLessonIndex s' <= currentLessonIndex s + 1)%N
                    /\ (currentLessonIndex s' <> currentLessonIndex s ->
                        exists now data,
                          e = EvChatSettled (TaskControl (lit "next")) now
                                            (Fulfilled data)
                          /\ truthy_str (error data) = false)).
    { intros ->. repeat split; lia. }
    destruct (is_session_event e) eqn:Es.
    { apply Hsame.
      destruct (session_event_cases e s s' Es Hd)
        as [->|[(t & ->)|(o & p & _ & ->)]]; reflexivity. }
    destruct e as [v|now| | |t now o|o| |c|c|t' o']; try discriminate Es; cbn in Hd.
    + injection Hd as <-. now apply Hsame.
    + injection Hd as <-. apply Hsame, submit_handler_index.
    + injection Hd as <-. now apply Hsame.
    + injection Hd as <-. now apply Hsame.
    + destruct t as [|action| | | | |]; try discriminate;
        apply take_task_pending in Hd as [p ->].
      * apply Hsame. now rewrite submit_settled_index.
      * pose proof (control_settled_index action now o (set_pending p s))
          as Hi. cbn [currentLessonIndex set_pending] in Hi.
        destruct o as [data|]; [|now apply Hsame].
        destruct (truthy_str (error data)) eqn:Herr; [now apply Hsame|].
        destruct (str_eqb action (lit "next")) eqn:Hact;
          [|now apply Hsame].
        apply str_eqb_eq in Hact. subst action.
        pose proof (js_succ_bounds (currentLessonIndex s)).
        rewrite Hi. repeat split; try lia. eauto.
    + apply take_task_pending in Hd as [p ->].
      apply Hsame. now rewrite loadSession_settled_index.
    + apply take_task_pending in Hd as [p ->]. now apply Hsame.
  - intros now data Herr. rewrite control_settled_index, Herr.
    now rewrite str_eqb_refl.
Qed.

(** *** The markup pass *)

Lemma strip_prefix_Some (p : str) : forall s r,
  strip_prefix p s = Some r <-> s = p ++ r.
Proof.
  induction p as [|a p IH]; intros s r; cbn.
  - split; [now intros [= ->] | now intros ->].
  - destruct s as [|b s]; [split; discriminate|].
    destruct (N.eqb_spec a b) as [->|Hne].
    + rewrite IH. split; [now intros -> | now intros [= ->]].
    + split; [discriminate | intros [= <- _]; now elim Hne].
Qed.

Lemma app_inj_length (a a' b b' : str) :
  List.length a = List.length a' -> a ++ b = a' ++ b' ->
  a = a' /\ b = b'.
Proof.
  revert a'. induction a as [|x a IH]; intros [|y a']; cbn;
    try discriminate; [now split|].
  intros [= Hl] [= -> H]. destruct (IH a' Hl H) as [-> ->]. now split.
Qed.

Section ReplaceFacts.

Variables (delim open_tag close_tag : str).

Lemma lazy_group_sound (s : str) : forall g rest,
  lazy_group delim s = Some (g, rest) ->
  s = g ++ delim ++ rest /\ g <> [] /\ Forall dot g.
Proof.
  induction s as [|c s IH]; cbn; intros g rest H; [discriminate|].
  destruct (is_line_terminator c) eqn:Hc; [discriminate|].
  destruct (strip_prefix delim s) as [r|] eqn:E.
  - injection H as <- <-. apply strip_prefix_Some in E. subst s.
    repeat split; [discriminate|]. now repeat constructor.
  - destruct (lazy_group delim s) as [[g1 r1]|]; [|discriminate].
    injection H as <- <-. destruct (IH g1 r1 eq_refl) as (-> & _ & Hd).
    repeat split; [discriminate|]. now constructor.
Qed.

Lemma lazy_group_least (s : str) : forall g rest g' post',
  lazy_group delim s = Some (g, rest) ->
  s = g' ++ delim ++ post' -> g' <> [] ->
  List.length g <= List.length g'.
Proof.
  induction s as [|c s IH]; cbn; intros g rest g' post' H Hs Hg';
    [discriminate|].
  destruct g' as [|c' g'']; [now elim Hg'|]. injection Hs as <- Hs.
  destruct (is_line_terminator c); [discriminate|].
  destruct (strip_prefix delim s) as [r|] eqn:E.
  - injection H as <- <-. cbn. lia.
  - destruct (lazy_group delim s) as [[g1 r1]|] eqn:E1; [|discriminate].
    injection H as <- <-. cbn. apply le_n_S.
    destruct g'' as [|x g3].
    + cbn in Hs. apply strip_prefix_Some in Hs. congruence.
    + eapply IH; [reflexivity|exact Hs|discriminate].
Qed.

Lemma lazy_group_complete (s : str) : forall g' post',
  s = g' ++ delim ++ post' -> g' <> [] -> Forall dot g' ->
  lazy_group delim s <> None.
Proof.
  induction s as [|c s IH]; intros g' post' Hs Hg' Hd.
  - destruct g'; [now elim Hg'|discriminate].
  - destruct g' as [|c' g'']; [now elim Hg'|]. injection Hs as <- Hs.
    apply Forall_cons_iff in Hd as [Hc Hd']. cbn. unfold dot in Hc.
    rewrite Hc. destruct (strip_prefix delim s) as [r|] eqn:E;
      [discriminate|].
    destruct g'' as [|x g3].
    + cbn in Hs. apply strip_prefix_Some in Hs. congruence.
    + assert (Hn : lazy_group delim s <> None)
        by (eapply IH; [exact Hs|discriminate|exact Hd']).
      destruct (lazy_group delim s) as [[g1 r1]|]; [discriminate|].
      now elim Hn.
Qed.

Lemma match_at_sound (s g rest : str) :
  match_at delim s = Some (g, rest) ->
  occurrence delim s [] g rest.
Proof.
  unfold match_at, occurrence.
  destruct (strip_prefix delim s) as [s1|] eqn:E; [|discriminate].
  intros H. apply strip_prefix_Some in E.
  apply lazy_group_sound in H as (-> & Hg & Hd). now subst s.
Qed.

Lemma match_at_least (s g rest g' post' : str) :
  match_at delim s = Some (g, rest) ->
  occurrence delim s [] g' post' ->
  List.length g <= List.length g'.
Proof.
  unfold match_at, occurrence.
  destruct (strip_prefix delim s) as [s1|] eqn:E; [|discriminate].
  intros H (Hs & Hg' & _). apply strip_prefix_Some in E.
  cbn in Hs. rewrite E in Hs. apply app_inv_head in Hs.
  eapply lazy_group_least; eauto.
Qed.

Lemma match_at_complete (s g' post' : str) :
  occurrence delim s [] g' post' -> match_at delim s <> None.
Proof.
  unfold match_at, occurrence. intros (Hs & Hg' & Hd). cbn in Hs.
  destruct (strip_prefix delim s) as [s1|] eqn:E.
  - apply strip_prefix_Some in E. rewrite E in Hs.
    apply app_inv_head in Hs. eapply lazy_group_complete; eauto.
  - pose proof (proj2 (strip_prefix_Some delim s _) Hs). congruence.
Qed.

Lemma occurrence_shorter (s pre g post : str) :
  occurrence delim s pre g post -> List.length post < List.length s.
Proof.
  intros (-> & Hg & _). rewrite !length_app.
  destruct g; [now elim Hg|]. cbn. lia.
Qed.

(** Enough fuel is as good as any. *)
Lemma replace_loop_fuel : forall n m s,
  List.length s <= n -> List.length s <= m ->
  replace_loop delim open_tag close_tag n s
  = replace_loop delim open_tag close_tag m s.
Proof.
  induction n as [|n IH]; intros m s Hn Hm.
  - destruct s; [|cbn in Hn; lia]. now destruct m.
  - destruct m as [|m]; [destruct s; [reflexivity|cbn in Hm; lia]|].
    destruct s as [|c s]; [reflexivity|]. cbn [replace_loop].
    destruct (match_at delim (c :: s)) as [[g rest]|] eqn:E.
    + apply match_at_sound, occurrence_shorter in E. cbn in *.
      do 3 f_equal. apply IH; lia.
    + f_equal. cbn in *. apply IH; lia.
Qed.

Lemma replace_delimited_cons (c : code_unit) (s : str) :
  replace_delimited delim open_tag close_tag (c :: s)
  = match match_at delim (c :: s) with
    | Some (g, rest) =>
        open_tag ++ g ++ close_tag
        ++ replace_delimited delim open_tag close_tag rest
    | None => c :: replace_delimited delim open_tag close_tag s
    end.
Proof.
  unfold replace_delimited. cbn [List.length replace_loop].
  destruct (match_at delim (c :: s)) as [[g rest]|] eqn:E;
    [|reflexivity].
  apply match_at_sound, occurrence_shorter in E. cbn in E.
  do 3 f_equal. apply replace_loop_fuel; lia.
Qed.

Lemma occurrence_cons (c : code_unit) (s pre g post : str) :
  occurrence delim (c :: s) (c :: pre) g post
  <-> occurrence delim s pre g post.
Proof.
  unfold occurrence. cbn. split.
  - intros ([= ->] & Hg & Hd). now repeat split.
  - intros (-> & Hg & Hd). now repeat split.
Qed.

Lemma occurrence_head (c c' : code_unit) (s pre g post : str) :
  occurrence delim (c :: s) (c' :: pre) g post -> c' = c.
Proof. intros ([= -> _] & _). reflexivity. Qed.

(** The scan of the global replace stops at the leftmost match. *)
Lemma replace_find (s : str) :
  replace_delimited delim open_tag close_tag s
  = match find_match delim s with
    | Some (pre, g, post) =>
        pre ++ open_tag ++ g ++ close_tag
        ++ replace_delimited delim open_tag close_tag post
    | None => s
    end.
Proof.
  induction s as [|c s IH]; [reflexivity|].
  rewrite replace_delimited_cons. cbn [find_match].
  destruct (match_at delim (c :: s)) as [[g rest]|]; [reflexivity|].
  rewrite IH. now destruct (find_match delim s) as [[[pre g] post]|].
Qed.

Lemma find_match_sound (s : str) : forall pre g post,
  find_match delim s = Some (pre, g, post) ->
  first_shortest delim s pre g post.
Proof.
  induction s as [|c s IH]; intros pre g post H; [discriminate|].
  cbn [find_match] in H.
  destruct (match_at delim (c :: s)) as [[g0 rest]|] eqn:E.
  - injection H as <- <- <-. split; [now apply match_at_sound|].
    intros [|c' pre'] g' post' Ho; [right|left; cbn; lia].
    split; [reflexivity|]. eapply match_at_least; eauto.
  - destruct (find_match delim s) as [[[pre1 g1] post1]|];
      [|discriminate].
    injection H as <- <- <-. destruct (IH _ _ _ eq_refl) as [Ho Hmin].
    split; [now apply (proj2 (occurrence_cons _ _ _ _ _))|].
    intros [|c' pre'] g' post' Ho'.
    + now apply match_at_complete in Ho'.
    + pose proof (occurrence_head _ _ _ _ _ _ Ho') as ->.
      apply (proj1 (occurrence_cons _ _ _ _ _)), Hmin in Ho'. cbn. lia.
Qed.

Lemma find_match_none (s : str) :
  find_match delim s = None ->
  forall pre g post, ~ occurrence delim s pre g post.
Proof.
  induction s as [|c s IH]; intros H pre g post Ho.
  - destruct Ho as (Hs & Hg & _). symmetry in Hs.
    apply app_eq_nil in Hs as [_ Hs]. apply app_eq_nil in Hs as [_ Hs].
    apply app_eq_nil in Hs as [Hs _]. contradiction.
  - cbn [find_match] in H.
    destruct (match_at delim (c :: s)) as [[g0 rest]|] eqn:E;
      [discriminate|].
    destruct (find_match delim s) as [[[pre1 g1] post1]|];
      [discriminate|].
    destruct pre as [|c' pre'].
    + now apply match_at_complete in Ho.
    + pose proof (occurrence_head _ _ _ _ _ _ Ho) as ->.
      apply (proj1 (occurrence_cons _ _ _ _ _)) in Ho.
      now apply (IH eq_refl pre' g post).
Qed.

(** The global replace computes the markup pass of the
    specification. *)
Lemma marked_up_replace (s : str) :
  marked_up delim open_tag close_tag s
            (replace_delimited delim open_tag close_tag s).
Proof.
  remember (List.length s) as n eqn:Hn.
  revert s Hn. induction n as [n IH] using lt_wf_ind. intros s Hn.
  rewrite replace_find.
  destruct (find_match delim s) as [[[pre g] post]|] eqn:E.
  - pose proof (find_match_sound _ _ _ _ E) as Hfs.
    apply marked_up_match with (post := post); [exact Hfs|].
    destruct Hfs as [Ho _]. apply occurrence_shorter in Ho.
    eapply IH; [|reflexivity]. lia.
  - apply marked_up_none. now apply find_match_none.
Qed.

Lemma first_shortest_unique (s p g q p' g' q' : str) :
  first_shortest delim s p g q -> first_shortest delim s p' g' q' ->
  p = p' /\ g = g' /\ q = q'.
Proof.
  intros [Ho Hmin] [Ho' Hmin'].
  pose proof (Hmin _ _ _ Ho') as H1. pose proof (Hmin' _ _ _ Ho) as H2.
  assert (Hp : List.length p = List.length p') by lia.
  assert (Hg : List.length g = List.length g') by lia.
  destruct Ho as (Hs & _), Ho' as (Hs' & _). rewrite Hs in Hs'.
  apply app_inj_length in Hs' as [-> Hs']; [|exact Hp].
  apply app_inv_head in Hs'.
  apply app_inj_length in Hs' as [-> Hs']; [|exact Hg].
  apply app_inv_head in Hs'. now subst.
Qed.

Lemma marked_up_functional (s o1 o2 : str) :
  marked_up delim open_tag close_tag s o1 ->
  marked_up delim open_tag close_tag s o2 -> o1 = o2.
Proof.
  intros H1. revert o2.
  induction H1 as [s Hno|s pre g post out Hfs _ IH]; intros o2 H2.
  - destruct H2 as [s _|s pre g post out [Ho _] _]; [reflexivity|].
    now apply Hno in Ho.
  - destruct H2 as [s Hno|s pre' g' post' out' Hfs' H2].
    + destruct Hfs as [Ho _]. now apply Hno in Ho.
    + destruct (first_shortest_unique _ _ _ _ _ _ _ Hfs Hfs')
        as (<- & <- & <-).
      now rewrite (IH _ H2).
Qed.

End ReplaceFacts.

(** *** Safe markup *)

Lemma tag_without_star_newline (t : str) :
  In t inline_tags -> ~ In 42%N t /\ ~ In 10%N t /\ replace_newlines t = t.
Proof.
  unfold inline_tags. cbn [In].
  intros [<-|[<-|[<-|[<-|[<-|[]]]]]]; cbn; repeat split;
    intros H; repeat (destruct H as [H|H]; [discriminate H|]); exact H.
Qed.

Lemma safe_app (a b : str) :
  markup_safe a -> markup_safe b -> markup_safe (a ++ b).
Proof.
  induction 1 as [|c s Hc Hs IH|t s Ht Hs IH]; intros Hb; cbn.
  - exact Hb.
  - apply safe_unit; auto.
  - rewrite <- app_assoc. apply safe_tag; auto.
Qed.

Lemma safe_without_lt (s : str) :
  Forall (fun c => c <> 60%N) s -> markup_safe s.
Proof. induction 1; constructor; auto. Qed.

(** A unit that no tag contains cuts safe markup into safe markup. *)
Lemma safe_split (c : code_unit) (x y : str) :
  (forall t, In t inline_tags -> ~ In c t) ->
  markup_safe (x ++ c :: y) -> markup_safe x /\ markup_safe y.
Proof.
  intros Hc H. remember (x ++ c :: y) as z eqn:Hz. revert x Hz.
  induction H as [|d s Hd Hs IH|t s Ht Hs IH]; intros x Hz.
  - destruct x; discriminate.
  - destruct x as [|d' x']; cbn in Hz; injection Hz as -> ->.
    + split; [constructor|exact Hs].
    + destruct (IH x' eq_refl). split; [constructor|]; auto.
  - apply app_eq_app in Hz as [l [[Ht' Hy]|[Hx Hs']]].
    + destruct l as [|c' l'].
      * rewrite app_nil_r in Ht'. subst x. cbn in Hy. subst s.
        destruct (IH [] eq_refl) as [_ Hy]. split; [|exact Hy].
        rewrite <- (app_nil_r t). apply safe_tag; [exact Ht|constructor].
      * injection Hy as <- _. elim (Hc t Ht). rewrite Ht'.
        apply in_or_app. right. now left.
    + destruct (IH l Hs') as [Hl Hy]. split; [|exact Hy].
      rewrite Hx. now apply safe_tag.
Qed.

Lemma safe_strip_stars (d y : str) :
  Forall (eq 42%N) d -> markup_safe (d ++ y) -> markup_safe y.
Proof.
  induction 1 as [|c d <- Hd IH]; cbn; intros H; [exact H|].
  apply IH. apply (safe_split 42%N [] (d ++ y)); [|exact H].
  intros t Ht. apply tag_without_star_newline, Ht.
Qed.

Section SafeReplace.

Variables (ds open_tag close_tag : str).
Hypothesis Hds : Forall (eq 42%N) ds.
Hypothesis Hopen : In open_tag inline_tags.
Hypothesis Hclose : In close_tag inline_tags.

(** The scan copies a tag as it is: no match starts inside one. *)
Lemma replace_copies_tag (t s : str) :
  ~ In 42%N t ->
  replace_delimited (42%N :: ds) open_tag close_tag (t ++ s)
  = t ++ replace_delimited (42%N :: ds) open_tag close_tag s.
Proof.
  induction t as [|x t IH]; intros Hx; [reflexivity|].
  cbn [app]. rewrite replace_delimited_cons.
  unfold match_at. cbn [strip_prefix].
  destruct (N.eqb_spec 42 x) as [<-|_]; [elim Hx; now left|].
  f_equal. apply IH. intros H. apply Hx. now right.
Qed.

Lemma safe_replace (s : str) :
  markup_safe s ->
  markup_safe (replace_delimited (42%N :: ds) open_tag close_tag s).
Proof.
  remember (List.length s) as n eqn:Hn.
  revert s Hn. induction n as [n IH] using lt_wf_ind.
  intros s Hn Hs. destruct Hs as [|c s Hc Hs|t s Ht Hs].
  - constructor.
  - rewrite replace_delimited_cons.
    match goal with
    | |- context [match ?m with _ => _ end] =>
        destruct m as [[g rest]|] eqn:E
    end.
    + apply match_at_sound in E.
      pose proof (occurrence_shorter _ _ _ _ _ E) as Hlt.
      destruct E as (Hcs & _). cbn [app] in Hcs.
      pose proof (eq_ind _ markup_safe (safe_unit c s Hc Hs) _ Hcs)
        as Hall.
      apply (safe_strip_stars (42%N :: ds)) in Hall;
        [|now constructor].
      apply safe_split in Hall as [Hg Hrest];
        [|intros t Ht; apply tag_without_star_newline, Ht].
      apply safe_strip_stars in Hrest; [|exact Hds].
      apply safe_tag; [exact Hopen|].
      apply safe_app; [exact Hg|].
      apply safe_tag; [exact Hclose|].
      eapply IH; [|reflexivity|exact Hrest]. subst n. exact Hlt.
    + constructor; [exact Hc|].
      eapply IH; [|reflexivity|exact Hs]. subst n. cbn. lia.
  - destruct t as [|x t].
    + cbn [app]. eapply IH; [|reflexivity|exact Hs].
      exfalso. revert Ht. unfold inline_tags. cbn.
      intuition discriminate.
    + rewrite replace_copies_tag by apply tag_without_star_newline, Ht.
      apply safe_tag; [exact Ht|].
      eapply IH; [|reflexivity|exact Hs]. subst n.
      rewrite length_app. cbn. lia.
Qed.

End SafeReplace.

Lemma safe_newlines (s : str) :
  markup_safe s -> markup_safe (replace_newlines s).
Proof.
  induction 1 as [|c s Hc Hs IH|t s Ht Hs IH].
  - constructor.
  - unfold replace_newlines. cbn [flat_map].
    destruct (c =? 10)%N.
    + apply safe_tag; [|exact IH]. unfold inline_tags. cbn. tauto.
    + cbn. now constructor.
  - unfold replace_newlines. rewrite flat_map_app.
    change (markup_safe (replace_newlines t ++ replace_newlines s)).
    destruct (tag_without_star_newline t Ht) as (_ & _ & ->).
    now apply safe_tag.
Qed.

Lemma escapeHtml_no_angle (text : str) :
  Forall (fun c => c <> 60%N /\ c <> 62%N) (escapeHtml text).
Proof.
  induction text as [|c text IH]; [constructor|].
  unfold escapeHtml. cbn [flat_map]. apply Forall_app. split; [|exact IH].
  unfold escape_unit.
  destruct (N.eqb_spec c 38); [repeat constructor; discriminate|].
  destruct (N.eqb_spec c 160); [repeat constructor; discriminate|].
  destruct (N.eqb_spec c 60); [repeat constructor; discriminate|].
  destruct (N.eqb_spec c 62); [repeat constructor; discriminate|].
  repeat constructor; assumption.
Qed.

(** Whatever the text, [formatMessage] yields safe markup. *)
Lemma formatMessage_safe (text : str) : markup_safe (formatMessage text).
Proof.
  unfold formatMessage. apply safe_newlines.
  apply (safe_replace []); [constructor|cbn; tauto|cbn; tauto|].
  apply (safe_replace [42%N]);
    [repeat constructor|cbn; tauto|cbn; tauto|].
  apply safe_without_lt.
  eapply Forall_impl; [|apply escapeHtml_no_angle]. cbn. tauto.
Qed.

Lemma escaped_escapeHtml (text : str) : escaped text (escapeHtml text).
Proof.
  induction text as [|c text IH]; [constructor|].
  change (escapeHtml (c :: text)) with (escape_unit c ++ escapeHtml text).
  unfold escape_unit.
  destruct (N.eqb_spec c 38) as [->|H1]; [now constructor|].
  destruct (N.eqb_spec c 160) as [->|H2]; [now constructor|].
  destruct (N.eqb_spec c 60) as [->|H3]; [now constructor|].
  destruct (N.eqb_spec c 62) as [->|H4]; [now constructor|].
  now apply escaped_other.
Qed.

Lemma escaped_functional (text out : str) :
  escaped text out -> out = escapeHtml text.
Proof.
  induction 1 as [|t o _ ->|t o _ ->|t o _ ->|t o _ ->
                  |c t o H1 H2 H3 H4 _ ->]; try reflexivity.
  change (escapeHtml (c :: t)) with (escape_unit c ++ escapeHtml t).
  unfold escape_unit.
  destruct (N.eqb_spec c 38); [contradiction|].
  destruct (N.eqb_spec c 160); [contradiction|].
  destruct (N.eqb_spec c 60); [contradiction|].
  destruct (N.eqb_spec c 62); [contradiction|]. reflexivity.
Qed.

Lemma line_broken_replace (s : str) : line_broken s (replace_newlines s).
Proof.
  induction s as [|c s IH]; [constructor|].
  change (replace_newlines (c :: s))
    with ((if (c =? 10)%N then lit "<br>" else [c]) ++ replace_newlines s).
  destruct (N.eqb_spec c 10) as [->|H]; now constructor.
Qed.

Lemma line_broken_functional (s out : str) :
  line_broken s out -> out = replace_newlines s.
Proof.
  induction 1 as [|t o _ ->|c t o H _ ->]; try reflexivity.
  change (replace_newlines (c :: t))
    with ((if (c =? 10)%N then lit "<br>" else [c]) ++ replace_newlines t).
  destruct (N.eqb_spec c 10); [contradiction|]. reflexivity.
Qed.

(** [formatMessage] is the reference pipeline, and the only result the
    reference pipeline allows. *)
Lemma formatMessage_reference (text out : str) :
  reference_render text out <-> out = formatMessage text.
Proof.
  unfold reference_render, formatMessage. split.
  - intros (e & bold & italic & He & Hb & Hi & Ho).
    apply escaped_functional in He. subst e.
    pose proof (marked_up_replace (lit "**") (lit "<strong>")
                  (lit "</strong>") (escapeHtml text)) as Hb'.
    rewrite (marked_up_functional _ _ _ _ _ _ Hb Hb') in Hi.
    pose proof (marked_up_replace (lit "*") (lit "<em>") (lit "</em>")
                  (replace_delimited (lit "**") (lit "<strong>")
                     (lit "</strong>") (escapeHtml text))) as Hi'.
    rewrite (marked_up_functional _ _ _ _ _ _ Hi Hi') in Ho.
    now apply line_broken_functional in Ho.
  - intros ->. eexists _, _, _.
    split; [apply escaped_escapeHtml|].
    split; [apply marked_up_replace|].
    split; [apply marked_up_replace|apply line_broken_replace].
Qed.

(** C6, as amended: the bubble of an AI view is [formatMessage] of the
    text, which is exactly what the reference pipeline allows: escaping
    first, then strong emphasis for the leftmost, shortest [**...**], then
    emphasis for [*...*], then line breaks.  The result is safe markup:
    escaping leaves no angle bracket, and every [<] of the result opens
    one of the five tags of the pass, so [<script>] comes out as escaped
    text; and [**bold** and *em*] comes out with both emphases and no
    asterisk.  The bubbles of the user and system views that the handlers
    write and the lesson titles are the escaped text and nothing more,
    the escaped text being the text with [&], [<], [>] and U+00A0 turned
    into their entities and every other unit kept.  A
    replayed history entry is escaped and nothing more only when its
    sender is 'user'; with any other sender, 'system' included, its text
    goes through the whole pipeline as AI text does. *)
Theorem formatMessage_is_escaped_markup :
  forall (text : str),
    (forall out, reference_render text out <-> out = formatMessage text)
    /\ (forall out, escaped text out <-> out = escapeHtml text)
    /\ markup_safe (formatMessage text)
    /\ Forall (fun c => c <> 60%N /\ c <> 62%N) (escapeHtml text)
    /\ formatMessage (lit "<script>alert(1)</script>")
       = lit "&lt;script&gt;alert(1)&lt;/script&gt;"
    /\ formatMessage (lit "**bold** and *em*")
       = lit "<strong>bold</strong> and <em>em</em>"
    /\ ~ In 42%N (formatMessage (lit "**bold** and *em*"))
    /\ (forall now,
          bubble (ai_view now text) = formatMessage text
          /\ bubble (user_view now text) = escapeHtml text)
    /\ bubble (system_view text) = escapeHtml text
    /\ (forall current index,
          lesson_text (render_lesson current index text)
          = escapeHtml text)
    /\ (forall who instant,
          bubble (history_view
                    {| sender := who; h_message := text;
                       timestamp := instant |})
          = if str_eqb who (lit "user") then escapeHtml text
            else formatMessage text).
Proof.
  intros text. split; [intros out; apply formatMessage_reference|].
  split.
  { intros out. split; [apply escaped_functional|].
    intros ->. apply escaped_escapeHtml. }
  split; [apply formatMessage_safe|].
  split; [apply escapeHtml_no_angle|].
  split; [vm_compute; reflexivity|].
  split; [vm_compute; reflexivity|].
  split.
  { vm_compute. intros H.
    repeat (destruct H as [H|H]; [discriminate H|]). exact H. }
  repeat split.
  intros who instant. unfold history_view. cbn [sender h_message].
  now destruct (str_eqb who (lit "user")).
Qed.

(** ** Further properties of the text helpers *)

Lemma escape_unit_nonempty (c : code_unit) : escape_unit c <> [].
Proof.
  unfold escape_unit.
  repeat (match goal with |- context [if ?b then _ else _] => destruct b end);
    discriminate.
Qed.

(** No escape of a unit is the start of the escape of another. *)
Lemma escape_unit_prefix_free (a b : code_unit) (x y : str) :
  escape_unit a ++ x = escape_unit b ++ y -> a = b /\ x = y.
Proof.
  unfold escape_unit.
  destruct (N.eqb_spec a 38) as [->|Ha1];
    [|destruct (N.eqb_spec a 160) as [->|Ha2];
      [|destruct (N.eqb_spec a 60) as [->|Ha3];
        [|destruct (N.eqb_spec a 62) as [->|Ha4]]]];
    (destruct (N.eqb_spec b 38) as [->|Hb1];
     [|destruct (N.eqb_spec b 160) as [->|Hb2];
       [|destruct (N.eqb_spec b 60) as [->|Hb3];
         [|destruct (N.eqb_spec b 62) as [->|Hb4]]]]);
    cbn; intros H; try discriminate H;
    try (injection H as H; subst; now split);
    injection H as H1 H2; subst; try congruence; now split.
Qed.

(** X1: escaping loses nothing: two different texts never have the same
    escaped form. *)
Theorem escapeHtml_injective :
  forall (a b : str), a <> b -> escapeHtml a <> escapeHtml b.
Proof.
  intros a b Hne Heq. apply Hne. clear Hne. revert b Heq.
  induction a as [|x a IH]; intros [|y b] Heq.
  - reflexivity.
  - unfold escapeHtml in Heq. cbn [flat_map] in Heq. symmetry in Heq.
    apply app_eq_nil in Heq as [Heq _]. now apply escape_unit_nonempty in Heq.
  - unfold escapeHtml in Heq. cbn [flat_map] in Heq.
    apply app_eq_nil in Heq as [Heq _]. now apply escape_unit_nonempty in Heq.
  - unfold escapeHtml in Heq. cbn [flat_map] in Heq.
    apply escape_unit_prefix_free in Heq as [-> Heq].
    f_equal. now apply IH.
Qed.

Lemma escapeHtml_app (a b : str) :
  escapeHtml (a ++ b) = escapeHtml a ++ escapeHtml b.
Proof. apply flat_map_app. Qed.

Lemma count_unit_app (c : code_unit) (a b : str) :
  count_unit c (a ++ b) = count_unit c a + count_unit c b.
Proof. apply count_occ_app. Qed.

Lemma count_unit_zero (c : code_unit) (s : str) :
  count_unit c s = 0 <-> ~ In c s.
Proof. symmetry. apply count_occ_not_In. Qed.

(** Escaping neither adds nor removes a unit that is not part of an
    entity: asterisks and line terminators stay where they are. *)
Lemma escapeHtml_keeps (c : code_unit) (text : str) :
  ~ In c (lit "&amp;nbsp;lt;gt;" ++ [160; 60; 62]%N) ->
  count_unit c (escapeHtml text) = count_unit c text.
Proof.
  clear toLocaleTimeString.
  intros Hc. induction text as [|x text IH]; [reflexivity|].
  change (escapeHtml (x :: text)) with (escape_unit x ++ escapeHtml text).
  change (x :: text) with ([x] ++ text). rewrite !count_unit_app, IH.
  f_equal. unfold escape_unit.
  destruct (N.eqb_spec x 38) as [->|H1];
    [|destruct (N.eqb_spec x 160) as [->|H2];
      [|destruct (N.eqb_spec x 60) as [->|H3];
        [|destruct (N.eqb_spec x 62) as [->|H4]]]].
  5: reflexivity.
  all: transitivity 0;
    [|symmetry]; apply count_unit_zero; intros Hin; apply Hc;
    cbn in Hin |- *; tauto.
Qed.

Lemma count_unit_stars (d : str) :
  Forall (eq 42%N) d -> count_unit 42%N d = List.length d.
Proof.
  induction 1 as [|c d <- _ IH]; [reflexivity|].
  change (42%N :: d) with ([42%N] ++ d). rewrite count_unit_app, IH.
  reflexivity.
Qed.

Section FewDelimiters.

Variables (delim open_tag close_tag : str).
Hypothesis Hdelim : Forall (eq 42%N) delim.

(** A match needs two delimiters. *)
Lemma occurrence_stars (s pre g post : str) :
  occurrence delim s pre g post ->
  2 * List.length delim <= count_unit 42%N s.
Proof.
  intros (-> & _). rewrite !count_unit_app, (count_unit_stars delim Hdelim).
  lia.
Qed.

(** With fewer asterisks than two delimiters hold, the pass changes
    nothing. *)
Lemma replace_few_stars (s : str) :
  count_unit 42%N s < 2 * List.length delim ->
  replace_delimited delim open_tag close_tag s = s.
Proof.
  intros H. rewrite replace_find.
  destruct (find_match delim s) as [[[pre g] post]|] eqn:E; [|reflexivity].
  apply find_match_sound in E as [Ho _]. apply occurrence_stars in Ho. lia.
Qed.

End FewDelimiters.

Lemma replace_newlines_none (s : str) :
  ~ In 10%N s -> replace_newlines s = s.
Proof.
  induction s as [|c s IH]; intros H; [reflexivity|].
  unfold replace_newlines in *. cbn [flat_map].
  destruct (N.eqb_spec c 10) as [->|_]; [elim H; now left|].
  cbn. f_equal. apply IH. intros Hin. apply H. now right.
Qed.

Lemma replace_newlines_app (a b : str) :
  replace_newlines (a ++ b) = replace_newlines a ++ replace_newlines b.
Proof. apply flat_map_app. Qed.

(** X2: a text with at most one asterisk gets no emphasis: it is escaped
    and its newlines become line breaks; without a newline it is just
    escaped. *)
Theorem formatMessage_plain_text :
  forall (text : str),
    count_unit 42%N text <= 1 ->
    formatMessage text = replace_newlines (escapeHtml text)
    /\ (~ In 10%N text -> formatMessage text = escapeHtml text).
Proof.
  clear toLocaleTimeString.
  intros text H.
  assert (He : count_unit 42%N (escapeHtml text) <= 1).
  { rewrite escapeHtml_keeps; [exact H|]. cbn. intuition discriminate. }
  assert (Hf : formatMessage text = replace_newlines (escapeHtml text)).
  { unfold formatMessage.
    rewrite (replace_few_stars (lit "**"));
      [|repeat constructor|cbn; lia].
    rewrite (replace_few_stars (lit "*"));
      [reflexivity|repeat constructor|cbn; lia]. }
  split; [exact Hf|]. intros Hn. rewrite Hf.
  apply replace_newlines_none. apply count_unit_zero.
  rewrite escapeHtml_keeps; [now apply count_unit_zero|].
  cbn. intuition discriminate.
Qed.

Lemma escapeHtml_dot (text : str) :
  Forall dot text -> Forall dot (escapeHtml text).
Proof.
  clear toLocaleTimeString.
  induction 1 as [|c text Hc _ IH]; [constructor|].
  change (escapeHtml (c :: text)) with (escape_unit c ++ escapeHtml text).
  apply Forall_app. split; [|exact IH]. unfold escape_unit.
  repeat (match goal with |- context [if ?b then _ else _] => destruct b end);
    repeat constructor; exact Hc.
Qed.

Lemma escapeHtml_no_star (text : str) :
  ~ In 42%N text -> ~ In 42%N (escapeHtml text).
Proof.
  clear toLocaleTimeString.
  intros H. apply count_unit_zero. rewrite escapeHtml_keeps.
  - now apply count_unit_zero.
  - cbn. intuition discriminate.
Qed.

Lemma escapeHtml_nonempty (text : str) : text <> [] -> escapeHtml text <> [].
Proof.
  clear toLocaleTimeString.
  destruct text as [|c text]; [congruence|]. intros _ H.
  change (escapeHtml (c :: text)) with (escape_unit c ++ escapeHtml text) in H.
  apply app_eq_nil in H as [H _]. now apply escape_unit_nonempty in H.
Qed.

Lemma dot_no_newline (s : str) : Forall dot s -> ~ In 10%N s.
Proof.
  clear toLocaleTimeString.
  intros H Hin. rewrite Forall_forall in H. specialize (H _ Hin).
  discriminate H.
Qed.

Section Wrapped.

Variables (delim open_tag close_tag : str).
Hypothesis Hstars : Forall (eq 42%N) delim.
Hypothesis Hdelim : delim <> [].

Lemma strip_prefix_other (c : code_unit) (s : str) :
  c <> 42%N -> strip_prefix delim (c :: s) = None.
Proof.
  intros Hc. destruct Hstars as [|d ds <- _]; [now elim Hdelim|].
  cbn [strip_prefix]. destruct (N.eqb_spec 42 c) as [E|_]; [|reflexivity].
  now elim Hc.
Qed.

(** The scan copies what holds no asterisk. *)
Lemma replace_copies (t s : str) :
  ~ In 42%N t ->
  replace_delimited delim open_tag close_tag (t ++ s)
  = t ++ replace_delimited delim open_tag close_tag s.
Proof.
  induction t as [|x t IH]; intros Hx; [reflexivity|].
  cbn [app]. rewrite replace_delimited_cons. unfold match_at.
  rewrite strip_prefix_other by (intros ->; apply Hx; now left).
  f_equal. apply IH. intros H. apply Hx. now right.
Qed.

(** A run without asterisk or line terminator between two delimiters is
    the group of the lazy match. *)
Lemma lazy_group_wrapped (g post : str) :
  g <> [] -> ~ In 42%N g -> Forall dot g ->
  lazy_group delim (g ++ delim ++ post) = Some (g, post).
Proof.
  induction g as [|c g IH]; intros Hg Hs Hd; [now elim Hg|].
  apply Forall_cons_iff in Hd as [Hc Hd]. cbn [app lazy_group].
  unfold dot in Hc. rewrite Hc. destruct g as [|c' g'].
  - cbn [app].
    now rewrite (proj2 (strip_prefix_Some delim (delim ++ post) post) eq_refl).
  - cbn [app]. rewrite strip_prefix_other
      by (intros ->; apply Hs; right; now left).
    cbn [app] in IH. rewrite IH; [reflexivity|discriminate| |exact Hd].
    intros H. apply Hs. now right.
Qed.

Lemma replace_at_match (s g rest : str) :
  match_at delim s = Some (g, rest) ->
  replace_delimited delim open_tag close_tag s
  = open_tag ++ g ++ close_tag
    ++ replace_delimited delim open_tag close_tag rest.
Proof.
  destruct s as [|c s]; intros H.
  - unfold match_at in H. destruct Hstars; [now elim Hdelim|discriminate H].
  - rewrite replace_delimited_cons. now rewrite H.
Qed.

Lemma replace_wrapped (pre g post : str) :
  ~ In 42%N pre -> g <> [] -> ~ In 42%N g -> Forall dot g ->
  replace_delimited delim open_tag close_tag
    (pre ++ delim ++ g ++ delim ++ post)
  = pre ++ open_tag ++ g ++ close_tag
    ++ replace_delimited delim open_tag close_tag post.
Proof.
  intros Hpre Hg Hs Hd. rewrite replace_copies by exact Hpre. f_equal.
  apply replace_at_match. unfold match_at.
  assert (Hp : strip_prefix delim (delim ++ g ++ delim ++ post)
               = Some (g ++ delim ++ post)) by now apply strip_prefix_Some.
  rewrite Hp. now apply lazy_group_wrapped.
Qed.

End Wrapped.

(** X3: a non-empty run [w] without asterisk or line terminator, wrapped
    in [**] (or in [*]) inside a text that has no other asterisk, comes out
    as one [strong] (or [em]) element around the escaped run; the text
    before and behind is escaped, with line breaks for its newlines. *)
Theorem formatMessage_wrapped_run :
  forall (pre w post : str),
    ~ In 42%N pre -> ~ In 42%N w -> ~ In 42%N post ->
    w <> [] -> Forall dot w ->
    formatMessage (pre ++ lit "**" ++ w ++ lit "**" ++ post)
    = replace_newlines (escapeHtml pre)
      ++ lit "<strong>" ++ escapeHtml w ++ lit "</strong>"
      ++ replace_newlines (escapeHtml post)
    /\ formatMessage (pre ++ lit "*" ++ w ++ lit "*" ++ post)
       = replace_newlines (escapeHtml pre)
         ++ lit "<em>" ++ escapeHtml w ++ lit "</em>"
         ++ replace_newlines (escapeHtml post).
Proof.
  clear toLocaleTimeString.
  intros pre w post Hpre Hw Hpost Hne Hd.
  pose proof (escapeHtml_no_star _ Hpre) as Epre.
  pose proof (escapeHtml_no_star _ Hw) as Ew.
  pose proof (escapeHtml_no_star _ Hpost) as Epost.
  pose proof (escapeHtml_nonempty _ Hne) as Ene.
  pose proof (escapeHtml_dot _ Hd) as Ed.
  apply count_unit_zero in Epre, Ew, Epost.
  assert (Hnl : replace_newlines (escapeHtml w) = escapeHtml w)
    by (apply replace_newlines_none, dot_no_newline, Ed).
  split; unfold formatMessage; rewrite !escapeHtml_app.
  - change (escapeHtml (lit "**")) with (lit "**").
    rewrite (replace_wrapped (lit "**"));
      [|repeat constructor|discriminate|now apply count_unit_zero
       |exact Ene|now apply count_unit_zero|exact Ed].
    rewrite (replace_few_stars (lit "**") _ _ (Forall_cons _ eq_refl
               (Forall_cons _ eq_refl (Forall_nil _))) (escapeHtml post))
      by (rewrite Epost; cbn; lia).
    rewrite (replace_few_stars (lit "*"));
      [|repeat constructor
       |rewrite !count_unit_app, Epre, Ew, Epost; cbn; lia].
    rewrite !replace_newlines_app, Hnl. reflexivity.
  - change (escapeHtml (lit "*")) with (lit "*").
    rewrite (replace_few_stars (lit "**"));
      [|repeat constructor
       |rewrite !count_unit_app, Epre, Ew, Epost; cbn; lia].
    rewrite (replace_wrapped (lit "*"));
      [|repeat constructor|discriminate|now apply count_unit_zero
       |exact Ene|now apply count_unit_zero|exact Ed].
    rewrite (replace_few_stars (lit "*") _ _ (Forall_cons _ eq_refl
               (Forall_nil _)) (escapeHtml post))
      by (rewrite Epost; cbn; lia).
    rewrite !replace_newlines_app, Hnl. reflexivity.
Qed.

(** ** Further properties of the handlers *)

Lemma trim_start_split (v : str) :
  exists pre, v = pre ++ trim_start v /\ forallb is_white_space pre = true.
Proof.
  induction v as [|c v (pre & Hv & Hpre)]; [now exists []|].
  cbn [trim_start]. destruct (is_white_space c) eqn:E.
  - exists (c :: pre). cbn. rewrite E, Hpre. split; [now f_equal|reflexivity].
  - now exists [].
Qed.

Lemma forallb_rev (f : code_unit -> bool) (l : str) :
  forallb f (rev l) = forallb f l.
Proof.
  induction l as [|x l IH]; [reflexivity|].
  cbn. rewrite forallb_app, IH. cbn. rewrite andb_true_r. apply andb_comm.
Qed.

Lemma trim_end_split (v : str) :
  exists post, v = trim_end v ++ post /\ forallb is_white_space post = true.
Proof.
  unfold trim_end. destruct (trim_start_split (rev v)) as (pre & Hv & Hpre).
  exists (rev pre). split.
  - rewrite <- rev_app_distr, <- Hv. now rewrite rev_involutive.
  - now rewrite forallb_rev.
Qed.

(** [trim] cuts white space off both ends and nothing else: the text is
    the trimmed text between two runs of white space, and the trimmed
    text neither starts nor ends with white space. *)
Lemma trim_spec (v : str) :
  exists pre post,
    v = pre ++ trim v ++ post
    /\ forallb is_white_space pre = true
    /\ forallb is_white_space post = true
    /\ (forall c r, trim v = c :: r -> is_white_space c = false)
    /\ (forall c r, trim v = r ++ [c] -> is_white_space c = false).
Proof.
  destruct (trim_start_split v) as (pre & Hv & Hpre).
  destruct (trim_end_split (trim_start v)) as (post & Ht & Hpost).
  exists pre, post. unfold trim. repeat split; try assumption.
  - rewrite <- Ht. exact Hv.
  - intros c r H. rewrite H in Ht.
    apply (trim_start_head v (r ++ post) c). exact Ht.
  - intros c r H. unfold trim_end in H.
    apply (f_equal (@rev _)) in H. rewrite rev_involutive, rev_app_distr in H.
    cbn in H. now apply trim_start_head in H.
Qed.

(** X4: what a submission sends is the input without the white space at
    its ends: the input is white space, the text sent, white space; the
    text sent neither starts nor ends with white space; the user view
    shows that same text; and the input is emptied. *)
Theorem submitted_text_is_trimmed_input :
  forall (now : N) (s : State),
    forallb is_white_space (chatInput_value s) = false ->
    exists pre sent post,
      chatInput_value s = pre ++ sent ++ post
      /\ forallb is_white_space pre = true
      /\ forallb is_white_space post = true
      /\ sent <> []
      /\ (forall c r, sent = c :: r -> is_white_space c = false)
      /\ (forall c r, sent = r ++ [c] -> is_white_space c = false)
      /\ fetches (submit_handler now s) = fetches s ++ [PostChat sent]
      /\ chatMessages (submit_handler now s)
         = remove_welcome (chatMessages s)
           ++ [Message (user_view now sent)]
      /\ chatInput_value (submit_handler now s) = [].
Proof.
  intros now s Hblank.
  destruct (trim_spec (chatInput_value s))
    as (pre & post & Hv & Hpre & Hpost & Hhead & Hlast).
  exists pre, (trim (chatInput_value s)), post.
  destruct (trim (chatInput_value s)) as [|c m] eqn:E.
  - apply trim_nil in E. congruence.
  - repeat split; try assumption; try discriminate.
    all: unfold submit_handler; rewrite E; reflexivity.
Qed.

(** What a turn of the event loop adds to the requests sent. *)
Lemma dispatch_fetches :
  forall (e : Event) (s s' : State),
    dispatch e s = Some s' ->
    fetches s'
    = fetches s
      ++ match e with
         | EvSubmit _ =>
             match trim (chatInput_value s) with
             | [] => []
             | c :: m => [PostChat (c :: m)]
             end
         | EvNextClick => [PostChat (lit "next")]
         | EvReplayClick => [PostChat (lit "replay")]
         | EvNewSessionClick true => [DeleteSession]
         | EvClearHistoryClick true => [DeleteSession]
         | _ => []
         end.
Proof.
  intros e s s' Hd.
  destruct e as [v|now| | |t now o|o| |[|]|[|]|t o]; cbn in Hd.
  - injection Hd as <-. cbn. now rewrite app_nil_r.
  - injection Hd as <-. unfold submit_handler.
    destruct (trim (chatInput_value s)); [now rewrite app_nil_r|reflexivity].
  - now injection Hd as <-.
  - now injection Hd as <-.
  - rewrite app_nil_r.
    destruct t as [|action| | | | |]; try discriminate;
      apply take_task_pending in Hd as [p ->]; destruct o as [data|];
      settle.
  - rewrite app_nil_r. apply take_task_pending in Hd as [p ->].
    destruct o as [[[[|m ms]|]]|]; try reflexivity.
    now rewrite loadSession_settled_history.
  - rewrite app_nil_r. now apply take_task_pending in Hd as [p ->].
  - now injection Hd as <-.
  - injection Hd as <-. now rewrite app_nil_r.
  - now injection Hd as <-.
  - injection Hd as <-. now rewrite app_nil_r.
  - rewrite app_nil_r. destruct t; try discriminate.
    now apply take_task_pending in Hd as [p ->].
Qed.

(** X5: requests go out on user actions only.  A submission sends one
    chat request with the trimmed text, or none when the input is blank;
    a click on next or replay sends one with its token; a confirmed click
    on a session button sends one DELETE and a declined one nothing; no
    other turn of the event loop sends anything: a reply, an error or a
    failure is never followed by a retry.  So in every reachable state
    the requests sent are the one session request of the start followed
    by DELETE requests and chat requests, and no chat request has an
    empty message. *)
Theorem requests_only_on_user_action :
  forall (s : State),
    (forall e s',
       dispatch e s = Some s' ->
       fetches s'
       = fetches s
         ++ match e with
            | EvSubmit _ =>
                match trim (chatInput_value s) with
                | [] => []
                | c :: m => [PostChat (c :: m)]
                end
            | EvNextClick => [PostChat (lit "next")]
            | EvReplayClick => [PostChat (lit "replay")]
            | EvNewSessionClick true => [DeleteSession]
            | EvClearHistoryClick true => [DeleteSession]
            | _ => []
            end)
    /\ (reachable s ->
        exists requests,
          fetches s = GetSession :: requests
          /\ Forall (fun r =>
                       r = DeleteSession
                       \/ exists m, r = PostChat m /\ m <> [])
                    requests).
Proof.
  intros s. split; [intros e s'; apply dispatch_fetches|].
  intros Hr. induction Hr as [|s e s' _ (rs & Hf & Hne) Hd].
  { exists []. now split. }
  apply dispatch_fetches in Hd. rewrite Hd, Hf.
  assert (Hsame : exists requests,
             (GetSession :: rs) ++ [] = GetSession :: requests
             /\ Forall (fun r =>
                          r = DeleteSession
                          \/ exists m, r = PostChat m /\ m <> [])
                       requests)
    by (exists rs; split; [now rewrite app_nil_r|exact Hne]).
  assert (Hone : forall r,
             (r = DeleteSession \/ exists m, r = PostChat m /\ m <> []) ->
             exists requests,
               (GetSession :: rs) ++ [r] = GetSession :: requests
               /\ Forall (fun r =>
                            r = DeleteSession
                            \/ exists m, r = PostChat m /\ m <> [])
                         requests).
  { intros r Hok. exists (rs ++ [r]). split; [reflexivity|].
    apply Forall_app. split; [exact Hne|now constructor]. }
  destruct e as [v|now| | |t now o|o| |[|]|[|]|t o]; try exact Hsame.
  - destruct (trim (chatInput_value s)) as [|c m]; [exact Hsame|].
    apply Hone. right. exists (c :: m). split; [reflexivity|discriminate].
  - apply Hone. right. exists (lit "next").
    split; [reflexivity|discriminate].
  - apply Hone. right. exists (lit "replay").
    split; [reflexivity|discriminate].
  - apply Hone. now left.
  - apply Hone. now left.
Qed.

(** Reads a field of a state whose pending tasks alone were replaced. *)
Ltac frame_pending :=
  cbn [set_pending currentLessonPlan currentLessonIndex isFirstMessage
       chatInput_value chatInput_disabled sendBtn_disabled
       nextLessonBtn_disabled replayLessonBtn_disabled
       typingIndicator_display lessonControls_display chatMessages
       lessonList progressCurrent progressTotal toast_textContent
       toast_show fetches notifications pending].

Ltac frame_pending_in H :=
  cbn [set_pending currentLessonPlan currentLessonIndex isFirstMessage
       chatInput_value chatInput_disabled sendBtn_disabled
       nextLessonBtn_disabled replayLessonBtn_disabled
       typingIndicator_display lessonControls_display chatMessages
       lessonList progressCurrent progressTotal toast_textContent
       toast_show fetches notifications pending] in H.

Lemma resume_inv t (k : State -> State) s s' :
  resume t k s = Some s' ->
  exists p, take_task t (pending s) = Some p /\ s' = k (set_pending p s).
Proof.
  unfold resume. destruct (take_task t (pending s)) as [p|]; [|discriminate].
  intros [= <-]. now exists p.
Qed.

(** Taking a task out leaves the tasks of another kind in flight. *)
Lemma take_task_keeps t x : forall l p,
  take_task t l = Some p -> task_eqb t x = false -> In x l -> In x p.
Proof.
  induction l as [|y l IH]; intros p H Hx Hin; [discriminate|].
  cbn in H. destruct (task_eqb t y) eqn:E.
  - injection H as <-. destruct Hin as [->|Hin]; [congruence|exact Hin].
  - destruct (take_task t l) as [r|]; [|discriminate]. injection H as <-.
    destruct Hin as [->|Hin]; [now left|right; now apply (IH r)].
Qed.

(** The continuation of a chat request either leaves the toast and the
    tasks alone or shows the completion toast and starts its timer. *)
Lemma submit_settled_toast now o s :
  (toast_show (submit_settled now o s) = toast_show s
   /\ toast_textContent (submit_settled now o s) = toast_textContent s
   /\ notifications (submit_settled now o s) = notifications s
   /\ pending (submit_settled now o s) = pending s)
  \/ (toast_show (submit_settled now o s) = true
      /\ toast_textContent (submit_settled now o s) = completed_toast
      /\ notifications (submit_settled now o s)
         = notifications s ++ [completed_toast]
      /\ pending (submit_settled now o s) = pending s ++ [TaskToastHide]).
Proof.
  destruct o as [data|]; unfold_handlers; repeat (break_match; cbn);
    tauto.
Qed.

Lemma control_settled_toast action now o s :
  (toast_show (sendControlMessage_settled action now o s) = toast_show s
   /\ toast_textContent (sendControlMessage_settled action now o s)
      = toast_textContent s
   /\ notifications (sendControlMessage_settled action now o s)
      = notifications s
   /\ pending (sendControlMessage_settled action now o s) = pending s)
  \/ (toast_show (sendControlMessage_settled action now o s) = true
      /\ toast_textContent (sendControlMessage_settled action now o s)
         = completed_toast
      /\ notifications (sendControlMessage_settled action now o s)
         = notifications s ++ [completed_toast]
      /\ pending (sendControlMessage_settled action now o s)
         = pending s ++ [TaskToastHide]).
Proof.
  destruct o as [data|]; unfold_handlers; repeat (break_match; cbn);
    tauto.
Qed.

Lemma submit_settled_flags now o s :
  chatInput_disabled (submit_settled now o s) = false
  /\ sendBtn_disabled (submit_settled now o s) = false
  /\ typingIndicator_display (submit_settled now o s) = DisplayNone
  /\ nextLessonBtn_disabled (submit_settled now o s)
     = nextLessonBtn_disabled s
  /\ replayLessonBtn_disabled (submit_settled now o s)
     = replayLessonBtn_disabled s.
Proof.
  destruct o as [data|]; unfold_handlers; repeat (break_match; cbn);
    tauto.
Qed.

Lemma control_settled_flags action now o s :
  chatInput_disabled (sendControlMessage_settled action now o s) = false
  /\ sendBtn_disabled (sendControlMessage_settled action now o s) = false
  /\ typingIndicator_display (sendControlMessage_settled action now o s)
     = DisplayNone
  /\ nextLessonBtn_disabled (sendControlMessage_settled action now o s)
     = false
  /\ replayLessonBtn_disabled (sendControlMessage_settled action now o s)
     = false.
Proof.
  destruct o as [data|]; unfold_handlers; repeat (break_match; cbn);
    tauto.
Qed.

Lemma loadSession_settled_frame o s :
  pending (loadSession_settled o s) = pending s
  /\ chatInput_disabled (loadSession_settled o s) = chatInput_disabled s
  /\ sendBtn_disabled (loadSession_settled o s) = sendBtn_disabled s
  /\ nextLessonBtn_disabled (loadSession_settled o s)
     = nextLessonBtn_disabled s
  /\ replayLessonBtn_disabled (loadSession_settled o s)
     = replayLessonBtn_disabled s
  /\ typingIndicator_display (loadSession_settled o s)
     = typingIndicator_display s
  /\ toast_show (loadSession_settled o s) = toast_show s
  /\ toast_textContent (loadSession_settled o s) = toast_textContent s
  /\ notifications (loadSession_settled o s) = notifications s.
Proof.
  destruct o as [[[[|m ms]|]]|]; try (repeat split; reflexivity).
  rewrite loadSession_settled_history. repeat split.
Qed.

Lemma submit_handler_frame now s :
  (submit_handler now s = s)
  \/ (pending (submit_handler now s) = pending s ++ [TaskSubmit]
      /\ nextLessonBtn_disabled (submit_handler now s)
         = nextLessonBtn_disabled s
      /\ replayLessonBtn_disabled (submit_handler now s)
         = replayLessonBtn_disabled s
      /\ toast_show (submit_handler now s) = toast_show s
      /\ toast_textContent (submit_handler now s) = toast_textContent s
      /\ notifications (submit_handler now s) = notifications s).
Proof.
  unfold submit_handler. destruct (trim (chatInput_value s)); [now left|].
  right. repeat split.
Qed.

(** X6: the page is never left locked.  In every reachable state, if next
    or replay is disabled the continuation of a control action is still
    to run, and if the input or the send button is disabled or the typing
    indicator is shown a chat request is still in flight. *)
Theorem disabled_controls_have_request_in_flight :
  forall (s : State),
    reachable s ->
    ((nextLessonBtn_disabled s = true \/ replayLessonBtn_disabled s = true) ->
     exists action, In (TaskControl action) (pending s))
    /\ ((chatInput_disabled s = true \/ sendBtn_disabled s = true
         \/ typingIndicator_display s = DisplayFlex) ->
        chat_in_flight s).
Proof.
  intros s Hr. induction Hr as [|s e s' _ [IH1 IH2] Hd].
  { split; cbn; intros H; intuition discriminate. }
  destruct (is_session_event e) eqn:Es.
  { destruct (session_event_cases e s s' Es Hd)
      as [->|[(t & ->)|(o & p & Hp & ->)]].
    - now split.
    - split; cbn.
      + intros H. destruct (IH1 H) as [a Ha]. exists a.
        apply in_or_app. now left.
      + intros H. destruct (IH2 H) as (x & Hin & Hx). exists x.
        split; [|exact Hx]. cbn. apply in_or_app. now left.
    - split; cbn.
      + intros H. destruct (IH1 H) as [a Ha]. exists a.
        apply in_or_app. left. apply in_or_app. left.
        eapply take_task_keeps; eauto.
      + intros H. destruct (IH2 H) as (x & Hin & Hx). exists x.
        split; [|exact Hx]. cbn. apply in_or_app. left.
        apply in_or_app. left.
        eapply take_task_keeps; [exact Hp| |exact Hin].
        destruct Hx as [->|[a ->]]; reflexivity. }
  destruct e as [v|now| | |t now o|o| |c|c|t' o']; try discriminate Es; cbn in Hd.
  - injection Hd as <-. split; [exact IH1|exact IH2].
  - injection Hd as <-.
    destruct (submit_handler_frame now s)
      as [->|(Hp & Hn & Hrp & _)]; [now split|].
    split.
    + rewrite Hp, Hn, Hrp. intros H. destruct (IH1 H) as [a Ha].
      exists a. apply in_or_app. now left.
    + intros _. exists TaskSubmit. rewrite Hp. split; [|now left].
      apply in_or_app. right. now left.
  - injection Hd as <-. split; intros _.
    + exists (lit "next"). cbn. apply in_or_app. right. now left.
    + exists (TaskControl (lit "next")). split; [|right; eauto].
      cbn. apply in_or_app. right. now left.
  - injection Hd as <-. split; intros _.
    + exists (lit "replay"). cbn. apply in_or_app. right. now left.
    + exists (TaskControl (lit "replay")). split; [|right; eauto].
      cbn. apply in_or_app. right. now left.
  - destruct t as [|action| | | | |]; try discriminate;
      apply resume_inv in Hd as (p & Hp & ->).
    + destruct (submit_settled_flags now o (set_pending p s))
        as (F1 & F2 & F3 & F4 & F5).
      split.
      * rewrite F4, F5. frame_pending. intros H.
        destruct (IH1 H) as [a Ha].
        exists a.
        assert (Hin : In (TaskControl a) p)
          by (eapply take_task_keeps; eauto).
        destruct (submit_settled_toast now o (set_pending p s))
          as [(_ & _ & _ & ->)|(_ & _ & _ & ->)]; frame_pending;
          [exact Hin|apply in_or_app; now left].
      * rewrite F1, F2, F3. intros H. intuition discriminate.
    + destruct (control_settled_flags action now o (set_pending p s))
        as (F1 & F2 & F3 & F4 & F5).
      split; rewrite ?F1, ?F2, ?F3, ?F4, ?F5; intros H;
        intuition discriminate.
  - apply resume_inv in Hd as (p & Hp & ->).
    destruct (loadSession_settled_frame o (set_pending p s))
      as (F0 & F1 & F2 & F3 & F4 & F5 & _).
    split.
    + rewrite F3, F4, F0. frame_pending. intros H.
      destruct (IH1 H) as [a Ha].
      exists a. eapply take_task_keeps; eauto.
    + rewrite F1, F2, F5. frame_pending. intros H.
      destruct (IH2 H) as (t & Hin & Ht). exists t. split; [|exact Ht].
      rewrite F0. frame_pending.
      eapply take_task_keeps; [exact Hp| |exact Hin].
      destruct Ht as [->|[a ->]]; reflexivity.
  - apply resume_inv in Hd as (p & Hp & ->). cbn. split.
    + intros H. destruct (IH1 H) as [a Ha].
      exists a. eapply take_task_keeps; eauto.
    + intros H. destruct (IH2 H) as (t & Hin & Ht). exists t.
      split; [|exact Ht].
      eapply take_task_keeps; [exact Hp| |exact Hin].
      destruct Ht as [->|[a ->]]; reflexivity.
Qed.

Lemma reachable_toast_timer (s : State) :
  reachable s ->
  (toast_show s = true -> In TaskToastHide (pending s))
  /\ (forall l msg,
        notifications s = l ++ [msg] -> toast_textContent s = msg).
Proof.
  intros Hr. induction Hr as [|s e s' _ [IH1 IH2] Hd].
  { split; cbn; [discriminate|]. intros [|x l] msg H; discriminate H. }
  destruct (is_session_event e) eqn:Es.
  { destruct (session_event_cases e s s' Es Hd)
      as [->|[(t & ->)|(o & p & Hp & ->)]].
    - now split.
    - cbn. split; [|exact IH2].
      intros H. apply in_or_app. left. now apply IH1.
    - cbn. split.
      + intros _. apply in_or_app. left. apply in_or_app. right. now left.
      + intros l msg H. now apply app_inj_tail in H as [_ <-]. }
  destruct e as [v|now| | |t now o|o| |c|c|t' o']; try discriminate Es; cbn in Hd.
  - injection Hd as <-. now split.
  - injection Hd as <-.
    destruct (submit_handler_frame now s)
      as [->|(Hp & _ & _ & Hs & Ht & Hn)]; [now split|].
    rewrite Hp, Hs, Ht, Hn. split; [|exact IH2].
    intros H. apply in_or_app. left. now apply IH1.
  - injection Hd as <-. cbn. split; [|exact IH2].
    intros H. apply in_or_app. left. now apply IH1.
  - injection Hd as <-. cbn. split; [|exact IH2].
    intros H. apply in_or_app. left. now apply IH1.
  - destruct t as [|action| | | | |]; try discriminate;
      apply resume_inv in Hd as (p & Hp & ->).
    + destruct (submit_settled_toast now o (set_pending p s))
        as [(-> & -> & -> & ->)|(-> & -> & -> & ->)]; cbn.
      * split; [|exact IH2]. intros H.
        eapply take_task_keeps; [exact Hp|reflexivity|now apply IH1].
      * split; [intros _; apply in_or_app; right; now left|].
        intros l msg H. now apply app_inj_tail in H as [_ <-].
    + destruct (control_settled_toast action now o (set_pending p s))
        as [(-> & -> & -> & ->)|(-> & -> & -> & ->)]; cbn.
      * split; [|exact IH2]. intros H.
        eapply take_task_keeps; [exact Hp|reflexivity|now apply IH1].
      * split; [intros _; apply in_or_app; right; now left|].
        intros l msg H. now apply app_inj_tail in H as [_ <-].
  - apply resume_inv in Hd as (p & Hp & ->).
    destruct (loadSession_settled_frame o (set_pending p s))
      as (F0 & _ & _ & _ & _ & _ & F6 & F7 & F8).
    rewrite F0, F6, F7, F8. cbn. split; [|exact IH2]. intros H.
    eapply take_task_keeps; [exact Hp|reflexivity|now apply IH1].
  - apply resume_inv in Hd as (p & Hp & ->). cbn.
    split; [discriminate|exact IH2].
Qed.

(** One turn of the event loop keeps the text of the toast or writes one
    of the two texts of the script. *)
Lemma dispatch_toast_text e s s' :
  dispatch e s = Some s' ->
  toast_textContent s' = toast_textContent s
  \/ toast_textContent s'
     = lit "Lesson plan completed! " ++ [55356; 57225]%N
  \/ toast_textContent s' = lit "History cleared successfully".
Proof.
  intros Hd.
  destruct (is_session_event e) eqn:Es.
  { destruct (session_event_cases e s s' Es Hd)
      as [->|[(t & ->)|(o & p & _ & ->)]];
      [now left|now left|right; right; reflexivity]. }
  destruct e as [v|now| | |t now o|o| |c|c|t' o']; try discriminate Es;
    cbn in Hd.
  - injection Hd as <-. now left.
  - injection Hd as <-.
    destruct (submit_handler_frame now s)
      as [->|(_ & _ & _ & _ & Ht & _)]; now left.
  - injection Hd as <-. now left.
  - injection Hd as <-. now left.
  - destruct t as [|action| | | | |]; try discriminate;
      apply resume_inv in Hd as (p & Hp & ->).
    + destruct (submit_settled_toast now o (set_pending p s))
        as [(_ & -> & _ & _)|(_ & -> & _ & _)];
        [now left|right; left; reflexivity].
    + destruct (control_settled_toast action now o (set_pending p s))
        as [(_ & -> & _ & _)|(_ & -> & _ & _)];
        [now left|right; left; reflexivity].
  - apply resume_inv in Hd as (p & Hp & ->).
    destruct (loadSession_settled_frame o (set_pending p s))
      as (_ & _ & _ & _ & _ & _ & _ & F7 & _).
    rewrite F7. now left.
  - apply resume_inv in Hd as (p & Hp & ->). now left.
Qed.

(** X7: a toast on display has its timer running, and the toast element
    carries the text of the latest notification: in every reachable state
    with the [show] class set a toast timer is pending, and the text of
    the toast is the last entry of the notifications, if there is one.
    The toast is written by the completion of the plan and by the
    clearing of the history, so its text is empty, as on the loaded page,
    or one of the two texts of the script. *)
Theorem shown_toast_has_timer :
  forall (s : State),
    reachable s ->
    (toast_show s = true -> In TaskToastHide (pending s))
    /\ (forall l msg,
          notifications s = l ++ [msg] -> toast_textContent s = msg)
    /\ (toast_textContent s = []
        \/ toast_textContent s
           = lit "Lesson plan completed! " ++ [55356; 57225]%N
        \/ toast_textContent s = lit "History cleared successfully").
Proof.
  intros s Hr.
  destruct (reachable_toast_timer s Hr) as [H1 H2].
  split; [exact H1|]. split; [exact H2|].
  clear H1 H2. induction Hr as [|s e s' _ IH Hd]; [now left|].
  destruct (dispatch_toast_text e s s' Hd) as [-> | [-> | ->]];
    [exact IH|right; now left|right; now right].
Qed.

(** What the continuation of a submission does to the lesson state: it
    leaves it alone, or stores and renders the plan of the reply. *)
Lemma submit_settled_lesson now o s :
  exists s0,
    (s0 = s
     \/ exists l ls,
         o = Fulfilled
               {| message := message_of o; lesson_plan := Some (l :: ls);
                  is_finished := finished_of o; error := error_of o |}
         /\ truthy_str (error_of o) = false
         /\ s0 = updateLessonPlan (l :: ls)
                   (set_currentLessonPlan (l :: ls) s))
    /\ currentLessonPlan (submit_settled now o s) = currentLessonPlan s0
    /\ currentLessonIndex (submit_settled now o s) = currentLessonIndex s0
    /\ lessonList (submit_settled now o s) = lessonList s0
    /\ progressCurrent (submit_settled now o s) = progressCurrent s0
    /\ progressTotal (submit_settled now o s) = progressTotal s0.
Proof.
  destruct o as [[msg plan fin err]|];
    [|exists s; split; [now left|repeat split]].
  destruct err as [[|c e]|]; destruct plan as [[|l ls]|].
  all: try (exists s; split; [now left|]; unfold_handlers;
            repeat (break_match; cbn); repeat split; reflexivity).
  all: exists (updateLessonPlan (l :: ls) (set_currentLessonPlan (l :: ls) s));
    (split; [right; exists l, ls; repeat split|]);
    unfold_handlers; repeat (break_match; cbn); repeat split; reflexivity.
Qed.

(** What the continuation of a control action does to it: nothing, or one
    step of the index followed by [updateLessonProgress]. *)
Lemma control_settled_lesson action now o s :
  exists s0,
    (s0 = s
     \/ s0 = updateLessonProgress
               (set_currentLessonIndex (js_succ (currentLessonIndex s)) s))
    /\ currentLessonPlan (sendControlMessage_settled action now o s)
       = currentLessonPlan s0
    /\ currentLessonIndex (sendControlMessage_settled action now o s)
       = currentLessonIndex s0
    /\ lessonList (sendControlMessage_settled action now o s) = lessonList s0
    /\ progressCurrent (sendControlMessage_settled action now o s)
       = progressCurrent s0
    /\ progressTotal (sendControlMessage_settled action now o s)
       = progressTotal s0.
Proof.
  destruct o as [data|]; [|exists s; split; [now left|repeat split]].
  destruct (error data) as [[|c e]|] eqn:He;
    destruct (str_eqb action (lit "next")) eqn:Ha.
  all: try (exists s; split; [now left|];
            unfold sendControlMessage_settled; rewrite He, ?Ha;
            unfold_handlers; repeat (break_match; cbn);
            repeat split; reflexivity).
  all: exists (updateLessonProgress
                 (set_currentLessonIndex (js_succ (currentLessonIndex s)) s));
    (split; [now right|]);
    unfold sendControlMessage_settled; rewrite He, Ha;
    unfold_handlers; repeat (break_match; cbn); repeat split; reflexivity.
Qed.

Lemma mapi_from_numbers (k c : N) (items : list LessonItem) :
  map lesson_number
    (mapi_from k
       (fun index item =>
          {| item_className := item_class index c;
             lesson_number := lesson_number item;
             lesson_text := lesson_text item |}) items)
  = map lesson_number items.
Proof.
  revert k. induction items as [|x items IH]; intros k; cbn;
    [reflexivity|]. now rewrite IH.
Qed.

Lemma mapi_from_render_numbers (k c : N) (p : list str) :
  map lesson_number (mapi_from k (render_lesson c) p)
  = mapi_from k
      (fun index _ =>
         if (index <? c)%N then None else Some (js_succ index)) p.
Proof.
  revert k. induction p as [|x p IH]; intros k; cbn; [reflexivity|].
  now rewrite IH.
Qed.

Lemma nth_error_mapi_from {A B : Type} (f : N -> A -> B) (l : list A) :
  forall (k : N) (i : nat),
    nth_error (mapi_from k f l) i
    = option_map (f (k + N.of_nat i)%N) (nth_error l i).
Proof.
  induction l as [|x l IH]; intros k [|i]; cbn [mapi_from nth_error];
    try reflexivity.
  - cbn. now rewrite N.add_0_r.
  - rewrite IH. cbn [option_map]. destruct (nth_error l i); [|reflexivity].
    cbn. do 2 f_equal. lia.
Qed.

Lemma updateLessonPlan_lesson (l : str) (ls : list str) (s : State) :
  let s1 := updateLessonPlan (l :: ls) (set_currentLessonPlan (l :: ls) s) in
  currentLessonPlan s1 = l :: ls
  /\ currentLessonIndex s1 = currentLessonIndex s
  /\ progressCurrent s1 = Some (js_succ (currentLessonIndex s))
  /\ progressTotal s1 = Some (N.of_nat (List.length (l :: ls)))
  /\ numbered_at (currentLessonIndex s) s1.
Proof.
  cbv zeta. unfold numbered_at. unfold_handlers. repeat split.
  rewrite (mapi_from_numbers 1). f_equal.
  apply mapi_from_render_numbers.
Qed.

Lemma updateLessonProgress_lesson (s : State) :
  let s1 :=
    updateLessonProgress
      (set_currentLessonIndex (js_succ (currentLessonIndex s)) s) in
  currentLessonPlan s1 = currentLessonPlan s
  /\ currentLessonIndex s1 = js_succ (currentLessonIndex s)
  /\ map lesson_number (lessonList s1) = map lesson_number (lessonList s)
  /\ match currentLessonPlan s with
     | [] => progressCurrent s1 = progressCurrent s
             /\ progressTotal s1 = progressTotal s
     | _ :: _ =>
         progressCurrent s1
         = Some (js_succ (js_succ (currentLessonIndex s)))
         /\ progressTotal s1
            = Some (N.of_nat (List.length (currentLessonPlan s)))
     end.
Proof.
  cbv zeta. unfold updateLessonProgress. cbn.
  destruct (currentLessonPlan s) as [|l ls] eqn:Hp; cbn;
    rewrite ?Hp; repeat split.
  unfold mapi. apply mapi_from_numbers.
Qed.

(** X8: the progress counters follow the lesson state: in every reachable
    state they are empty when no plan is stored, and otherwise show the
    lesson index plus one and the length of the plan, also when the index
    has run past the plan. *)
Theorem progress_counters_follow_lesson_state :
  forall (s : State), reachable s -> progress_in_sync s.
Proof.
  intros s Hr. induction Hr as [|s e s' _ IH Hd]; [now split|].
  assert (Hext : forall s1,
             currentLessonPlan s1 = currentLessonPlan s ->
             currentLessonIndex s1 = currentLessonIndex s ->
             progressCurrent s1 = progressCurrent s ->
             progressTotal s1 = progressTotal s ->
             progress_in_sync s1).
  { intros s1 H1 H2 H3 H4. unfold progress_in_sync in *.
    now rewrite H1, H2, H3, H4. }
  destruct (is_session_event e) eqn:Es.
  { destruct (session_event_cases e s s' Es Hd)
      as [->|[(t & ->)|(o & p & _ & ->)]]; now apply Hext. }
  destruct e as [v|now| | |t now o|o| |c|c|t' o']; try discriminate Es; cbn in Hd.
  - injection Hd as <-. now apply Hext.
  - injection Hd as <-. apply Hext; unfold submit_handler;
      destruct (trim (chatInput_value s)); reflexivity.
  - injection Hd as <-. now apply Hext.
  - injection Hd as <-. now apply Hext.
  - destruct t as [|action| | | | |]; try discriminate;
      apply resume_inv in Hd as (p & _ & ->).
    + destruct (submit_settled_lesson now o (set_pending p s))
        as (s0 & [->|(l & ls & _ & _ & ->)] & H1 & H2 & H3 & H4 & H5).
      * now apply Hext.
      * destruct (updateLessonPlan_lesson l ls (set_pending p s))
          as (E1 & E2 & E3 & E4 & _).
        unfold progress_in_sync. rewrite H1, H2, H4, H5, E1, E2, E3, E4.
        now split.
    + destruct (control_settled_lesson action now o (set_pending p s))
        as (s0 & [->| ->] & H1 & H2 & H3 & H4 & H5).
      * now apply Hext.
      * destruct (updateLessonProgress_lesson (set_pending p s))
          as (E1 & E2 & _ & E4).
        frame_pending_in E1. frame_pending_in E2. frame_pending_in E4.
        unfold progress_in_sync in *. rewrite H1, H2, H4, H5.
        frame_pending. rewrite E1, E2.
        destruct (currentLessonPlan s) as [|l ls];
          destruct E4 as [-> ->]; [exact IH|now split].
  - apply resume_inv in Hd as (p & _ & ->).
    apply Hext; destruct o as [[[[|m ms]|]]|]; try reflexivity;
      now rewrite loadSession_settled_history.
  - apply resume_inv in Hd as (p & _ & ->). now apply Hext.
Qed.

(** The number cells are those of a rendering at an index the lesson
    index has reached. *)
Lemma reachable_numbered (s : State) :
  reachable s ->
  exists rendered_at,
    (rendered_at <= currentLessonIndex s)%N /\ numbered_at rendered_at s.
Proof.
  intros Hr. induction Hr as [|s e s' _ (c0 & Hle & IH) Hd].
  { exists 0%N. split; [reflexivity|reflexivity]. }
  assert (Hext : forall s1,
             currentLessonPlan s1 = currentLessonPlan s ->
             currentLessonIndex s1 = currentLessonIndex s ->
             lessonList s1 = lessonList s ->
             exists rendered_at,
               (rendered_at <= currentLessonIndex s1)%N
               /\ numbered_at rendered_at s1).
  { intros s1 H1 H2 H3. exists c0. unfold numbered_at in *.
    now rewrite H1, H2, H3. }
  destruct (is_session_event e) eqn:Es.
  { destruct (session_event_cases e s s' Es Hd)
      as [->|[(t & ->)|(o & p & _ & ->)]]; now apply Hext. }
  destruct e as [v|now| | |t now o|o| |c|c|t' o']; try discriminate Es; cbn in Hd.
  - injection Hd as <-. now apply Hext.
  - injection Hd as <-. apply Hext; unfold submit_handler;
      destruct (trim (chatInput_value s)); reflexivity.
  - injection Hd as <-. now apply Hext.
  - injection Hd as <-. now apply Hext.
  - destruct t as [|action| | | | |]; try discriminate;
      apply resume_inv in Hd as (p & _ & ->).
    + destruct (submit_settled_lesson now o (set_pending p s))
        as (s0 & [->|(l & ls & _ & _ & ->)] & H1 & H2 & H3 & _).
      * now apply Hext.
      * destruct (updateLessonPlan_lesson l ls (set_pending p s))
          as (E1 & E2 & _ & _ & E5).
        exists (currentLessonIndex s). unfold numbered_at in *.
        rewrite H1, H2, H3, E1, E2. split; [reflexivity|].
        rewrite E5, E1. reflexivity.
    + destruct (control_settled_lesson action now o (set_pending p s))
        as (s0 & [->| ->] & H1 & H2 & H3 & _).
      * now apply Hext.
      * destruct (updateLessonProgress_lesson (set_pending p s))
          as (E1 & E2 & E3 & _).
        frame_pending_in E1. frame_pending_in E2. frame_pending_in E3.
        exists c0. unfold numbered_at in *. rewrite H1, H2, H3.
        frame_pending. rewrite E1, E2, E3.
        split; [|exact IH].
        pose proof (js_succ_bounds (currentLessonIndex s)). lia.
  - apply resume_inv in Hd as (p & _ & ->).
    apply Hext; destruct o as [[[[|m ms]|]]|]; try reflexivity;
      now rewrite loadSession_settled_history.
  - apply resume_inv in Hd as (p & _ & ->). now apply Hext.
Qed.






(** X9: the number cell of a lesson entry is never wrong, only stale: in
    every reachable state the cell of the entry at position [i] is either
    empty, and then the entry lies below the lesson index (it is
    completed), or holds [i + 1]. *)
Theorem lesson_numbers_are_positions :
  forall (s : State) (i : nat) (item : LessonItem),
    reachable s ->
    nth_error (lessonList s) i = Some item ->
    (lesson_number item = None
     /\ (N.of_nat i < currentLessonIndex s)%N)
    \/ lesson_number item = Some (js_succ (N.of_nat i)).
Proof.
  intros s i item Hr Hi.
  destruct (reachable_numbered s Hr) as (c0 & Hle & Hn).
  unfold numbered_at, mapi in Hn.
  apply (f_equal (fun l => nth_error l i)) in Hn.
  rewrite nth_error_map, Hi, nth_error_mapi_from in Hn. cbn in Hn.
  destruct (nth_error (currentLessonPlan s) i); [|discriminate Hn].
  cbn in Hn. injection Hn as Hn. rewrite Hn.
  destruct (N.ltb_spec (N.of_nat i) c0) as [Hlt|_]; [left|now right].
  split; [reflexivity|lia].
Qed.

(** X10: the stored plan changes in one way only: the reply to a
    submission, without a truthy [error], carrying a non-empty
    [lesson_plan], replaces it.  A reply with an empty or missing plan
    keeps the stored one, and so does every reply to a control action,
    whatever plan it carries. *)
Theorem plan_replaced_only_by_submit_reply :
  forall (e : Event) (s s' : State),
    dispatch e s = Some s' ->
    currentLessonPlan s'
    = match e with
      | EvChatSettled TaskSubmit _ (Fulfilled data) =>
          if truthy_str (error data) then currentLessonPlan s
          else match lesson_plan data with
               | Some (l :: ls) => l :: ls
               | _ => currentLessonPlan s
               end
      | _ => currentLessonPlan s
      end.
Proof.
  intros e s s' Hd.
  destruct (is_session_event e) eqn:Es.
  { destruct (session_event_cases e s s' Es Hd)
      as [->|[(t & ->)|(o & p & _ & ->)]];
      destruct e as [v|now| | |t' now o'|o'| |c|c|t' o'];
      try discriminate Es; reflexivity. }
  destruct e as [v|now| | |t now o|o| |c|c|t' o']; try discriminate Es; cbn in Hd.
  - now injection Hd as <-.
  - injection Hd as <-. unfold submit_handler.
    now destruct (trim (chatInput_value s)).
  - now injection Hd as <-.
  - now injection Hd as <-.
  - destruct t as [|action| | | | |]; try discriminate;
      apply resume_inv in Hd as (p & _ & ->); destruct o as [data|];
      settle.
  - apply resume_inv in Hd as (p & _ & ->).
    destruct o as [[[[|m ms]|]]|]; try reflexivity.
    now rewrite loadSession_settled_history.
  - now apply resume_inv in Hd as (p & _ & ->).
Qed.

Lemma submit_settled_first now o s :
  (isFirstMessage (submit_settled now o s) = isFirstMessage s
   /\ (lessonControls_display (submit_settled now o s)
       = lessonControls_display s
       \/ lessonControls_display (submit_settled now o s) = DisplayNone))
  \/ (isFirstMessage s = true
      /\ isFirstMessage (submit_settled now o s) = false
      /\ lessonControls_display (submit_settled now o s) = DisplayFlex).
Proof.
  destruct o as [[msg plan fin err]|];
    [destruct err as [[|c e]|]; destruct plan as [[|l ls]|];
     destruct fin as [[|]|]|];
    unfold_handlers; try (destruct (isFirstMessage s) eqn:E; cbn);
    repeat (break_match; cbn); tauto.
Qed.

Lemma control_settled_first action now o s :
  isFirstMessage (sendControlMessage_settled action now o s)
  = isFirstMessage s
  /\ (lessonControls_display (sendControlMessage_settled action now o s)
      = lessonControls_display s
      \/ lessonControls_display (sendControlMessage_settled action now o s)
         = DisplayNone).
Proof.
  destruct o as [data|]; unfold_handlers; repeat (break_match; cbn);
    tauto.
Qed.

(** X11: [isFirstMessage] never returns to true; in every reachable state
    in which the lesson controls are on display it is false; and once it
    is false, controls that a completion has hidden are shown again by no
    submission, control action or timer: a reply after the completion
    does not bring them back. *)
Theorem first_message_flag_and_controls :
  forall (s : State),
    (reachable s ->
     lessonControls_display s = DisplayFlex -> isFirstMessage s = false)
    /\ (forall e s',
          dispatch e s = Some s' ->
          isFirstMessage s = false ->
          isFirstMessage s' = false
          /\ (lessonControls_display s = DisplayNone ->
              (forall o, e <> EvSessionSettled o) ->
              lessonControls_display s' = DisplayNone)).
Proof.
  intros s. split.
  - intros Hr. induction Hr as [|s e s' _ IH Hd]; [discriminate|].
    destruct (is_session_event e) eqn:Es.
    { destruct (session_event_cases e s s' Es Hd)
        as [->|[(t & ->)|(o & p & _ & ->)]]; exact IH. }
    destruct e as [v|now| | |t now o|o| |c|c|t' o']; try discriminate Es; cbn in Hd.
    + now injection Hd as <-.
    + injection Hd as <-. unfold submit_handler.
      now destruct (trim (chatInput_value s)).
    + now injection Hd as <-.
    + now injection Hd as <-.
    + destruct t as [|action| | | | |]; try discriminate;
        apply resume_inv in Hd as (p & _ & ->).
      * destruct (submit_settled_first now o (set_pending p s))
          as [(-> & [-> | ->])|(_ & -> & _)];
          frame_pending; [exact IH|discriminate|reflexivity].
      * destruct (control_settled_first action now o (set_pending p s))
          as (-> & [-> | ->]); frame_pending; [exact IH|discriminate].
    + apply resume_inv in Hd as (p & _ & ->).
      destruct o as [[[[|m ms]|]]|]; try exact IH.
      now rewrite loadSession_settled_history.
    + now apply resume_inv in Hd as (p & _ & ->).
  - intros e s' Hd Hf.
    destruct (is_session_event e) eqn:Es.
    { destruct (session_event_cases e s s' Es Hd)
        as [->|[(t & ->)|(o & p & _ & ->)]]; now split. }
    destruct e as [v|now| | |t now o|o| |c|c|t' o']; try discriminate Es; cbn in Hd.
    + injection Hd as <-. now split.
    + injection Hd as <-. unfold submit_handler.
      destruct (trim (chatInput_value s)); now split.
    + injection Hd as <-. now split.
    + injection Hd as <-. now split.
    + destruct t as [|action| | | | |]; try discriminate;
        apply resume_inv in Hd as (p & _ & ->).
      * destruct (submit_settled_first now o (set_pending p s))
          as [(-> & [-> | ->])|(Ht & _)]; frame_pending;
          [now split|now split|].
        frame_pending_in Ht. congruence.
      * destruct (control_settled_first action now o (set_pending p s))
          as (-> & [-> | ->]); frame_pending; now split.
    + apply resume_inv in Hd as (p & _ & ->). split.
      * destruct o as [[[[|m ms]|]]|]; try exact Hf.
        now rewrite loadSession_settled_history.
      * intros _ H. now elim (H o).
    + apply resume_inv in Hd as (p & _ & ->). now split.
Qed.

Lemma transcript_shape_append (l : list Node) (m : MessageDiv) :
  className m = "message ai"%string ->
  transcript_shape l -> transcript_shape (l ++ [Message m]).
Proof.
  intros Hm [views [[-> Hv]| ->]]; exists (views ++ [m]).
  - left. split; [cbn; now rewrite map_app|].
    apply Forall_app. split; [exact Hv|now constructor].
  - right. now rewrite map_app.
Qed.

Lemma transcript_shape_remove (l : list Node) (views : list MessageDiv) :
  transcript_shape l ->
  transcript_shape (remove_welcome l ++ map Message views).
Proof.
  intros [old [[-> _]| ->]]; exists (old ++ views); right.
  - cbn. now rewrite map_app.
  - rewrite map_app. f_equal.
    induction old as [|x old IH]; [reflexivity|]. cbn. now rewrite IH.
Qed.

Lemma reply_views_are_ai now o :
  className (submit_reply_view now o) = "message ai"%string
  /\ className (control_reply_view now o) = "message ai"%string.
Proof.
  destruct o as [data|]; cbn; [|now split].
  destruct (error data) as [[|c e]|]; now split.
Qed.

(** X12: the transcript keeps one shape: in every reachable state it is
    either the welcome placeholder followed by AI and system views only,
    or a run of views without placeholder.  So there is at most one
    placeholder, it stays in front, and no user view ever stands beside
    it. *)
Theorem transcript_keeps_shape :
  forall (s : State), reachable s -> transcript_shape (chatMessages s).
Proof.
  intros s Hr. induction Hr as [|s e s' _ IH Hd].
  { exists []. left. now split. }
  destruct (is_session_event e) eqn:Es.
  { destruct (session_event_cases e s s' Es Hd)
      as [->|[(t & ->)|(o & p & _ & ->)]]; exact IH. }
  destruct e as [v|now| | |t now o|o| |c|c|t' o']; try discriminate Es; cbn in Hd.
  - now injection Hd as <-.
  - injection Hd as <-. unfold submit_handler.
    destruct (trim (chatInput_value s)) as [|c m]; [exact IH|]. cbn.
    apply (transcript_shape_remove _ [user_view now (c :: m)]), IH.
  - now injection Hd as <-.
  - now injection Hd as <-.
  - destruct t as [|action| | | | |]; try discriminate;
      apply resume_inv in Hd as (p & _ & ->).
    + rewrite submit_settled_transcript.
      apply transcript_shape_append; [apply reply_views_are_ai|exact IH].
    + rewrite control_settled_transcript.
      apply transcript_shape_append; [apply reply_views_are_ai|exact IH].
  - apply resume_inv in Hd as (p & _ & ->).
    destruct o as [[[[|m ms]|]]|]; try exact IH.
    rewrite loadSession_settled_history.
    apply (transcript_shape_remove _ (map history_view (m :: ms))), IH.
  - now apply resume_inv in Hd as (p & _ & ->).
Qed.

(** ** The rest of the chat page *)



Lemma sidebar_after_clicks (n : nat) (b : Sidebar) :
  lessonSidebar_collapsed (Nat.iter n sidebarToggle_click b)
  = if Nat.even n then lessonSidebar_collapsed b
    else negb (lessonSidebar_collapsed b).
Proof.
  induction n as [|n IH]; [reflexivity|].
  cbn [Nat.iter nat_rect sidebarToggle_click lessonSidebar_collapsed].
  change (nat_rect _ b (fun _ => sidebarToggle_click) n)
    with (Nat.iter n sidebarToggle_click b).
  rewrite IH, Nat.even_succ, <- Nat.negb_even.
  destruct (Nat.even n); cbn; now rewrite ?negb_involutive.
Qed.

(** X14: after any click on the sidebar toggle the icon tells the state
    of the sidebar, the right arrow when it is collapsed and the left one
    when it is open, and the sidebar is collapsed after an odd number of
    clicks exactly when it was open before. *)
Theorem sidebar_icon_follows_state :
  forall (n : nat) (b : Sidebar),
    let b' := Nat.iter (S n) sidebarToggle_click b in
    toggle_icon b'
    = (if lessonSidebar_collapsed b' then arrow_right else arrow_left)
    /\ lessonSidebar_collapsed b'
       = (if Nat.even n then negb (lessonSidebar_collapsed b)
          else lessonSidebar_collapsed b).
Proof.
  intros n b. cbv zeta. split; [reflexivity|].
  rewrite sidebar_after_clicks, Nat.even_succ, <- Nat.negb_even.
  destruct (Nat.even n); reflexivity.
Qed.

(** X15: the user menu stays consistent: if the button's [active] class
    and the dropdown's [show] class agree, they agree after any sequence
    of clicks; a click that reaches the document from outside the button
    and the dropdown closes the menu, one from inside leaves it as it is,
    and two clicks on the button restore it. *)
Theorem user_menu_stays_consistent :
  forall (es : list MenuEvent) (m : UserMenu),
    userMenuBtn_active m = userDropdown_show m ->
    (let m' := fold_left menu_step es m in
     userMenuBtn_active m' = userDropdown_show m')
    /\ document_click false false m
       = {| userMenuBtn_active := false; userDropdown_show := false |}
    /\ (forall in_button in_dropdown,
          in_button || in_dropdown = true ->
          document_click in_button in_dropdown m = m)
    /\ userMenuBtn_click (userMenuBtn_click m) = m.
Proof.
  intros es m H. repeat split.
  - cbv zeta. revert m H. induction es as [|e es IH]; intros m H; [exact H|].
    cbn [fold_left]. apply IH.
    destruct e as [|[|] [|]]; cbn; congruence.
  - intros [|] [|] Hin; try discriminate Hin; reflexivity.
  - destruct m as [[|] [|]]; reflexivity.
Qed.


(** X17: the templates [loadSession] writes out agree with those of the
    live messages: an entry of the history whose sender is ['user'] gets
    the class, avatar and bubble [addUserMessage] gives its text, any
    other entry those [addAIMessage] gives it, and only the time cell
    differs (the stored timestamp instead of the clock).  No entry comes
    back as a system view: an error shown during the session is restored,
    if the server kept it, as an AI message. *)
Theorem history_views_match_live_views :
  forall (now : N) (msg : HistoryEntry),
    (sender msg = lit "user" ->
     history_view msg
     = {| className := className (user_view now (h_message msg));
          avatar := avatar (user_view now (h_message msg));
          bubble := bubble (user_view now (h_message msg));
          time := Some (formatTimestamp (timestamp msg)) |})
    /\ (sender msg <> lit "user" ->
        history_view msg
        = {| className := className (ai_view now (h_message msg));
             avatar := avatar (ai_view now (h_message msg));
             bubble := bubble (ai_view now (h_message msg));
             time := Some (formatTimestamp (timestamp msg)) |})
    /\ avatar (history_view msg) <> AvatarWarning
    /\ (forall text, history_view msg <> system_view text).
Proof.
  intros now msg. unfold history_view. split; [|split; [|split]].
  - intros H. rewrite H, str_eqb_refl. reflexivity.
  - intros H. destruct (str_eqb (sender msg) (lit "user")) eqn:E;
      [|reflexivity].
    apply str_eqb_eq in E. contradiction.
  - destruct (str_eqb (sender msg) (lit "user")); discriminate.
  - intros text H. apply (f_equal avatar) in H.
    destruct (str_eqb (sender msg) (lit "user")); discriminate H.
Qed.

End Controller.

(** ** The properties on sample runs *)

Lemma lesson_index_moves_only_on_next_witness :
  dispatch sample_clock next_settled (after sample_clock awaiting_next)
  = Some (after sample_clock (awaiting_next ++ [next_settled]))
  /\ (currentLessonIndex (after sample_clock awaiting_next)
      <= currentLessonIndex
           (after sample_clock (awaiting_next ++ [next_settled])))%N.
Proof.
  assert (H : dispatch sample_clock next_settled
                (after sample_clock awaiting_next)
              = Some (after sample_clock (awaiting_next ++ [next_settled])))
    by (vm_compute; reflexivity).
  split; [exact H|].
  exact (proj1 (proj1 (lesson_index_moves_only_on_next sample_clock
                         (after sample_clock awaiting_next)) _ _ H)).
Defined.

(** C1, as stated, fails: after the plan [A, B] has arrived and two
    'next' actions have been answered, with the lesson controls on display
    all along, the index is 2, the length of the plan. *)
Lemma lesson_index_bound_counterexample :
  ~ (forall s,
       reachable sample_clock s ->
       currentLessonPlan s <> [] ->
       (currentLessonIndex s
        < N.of_nat (List.length (currentLessonPlan s)))%N).
Proof.
  intros H.
  assert (Hr : reachable sample_clock (after sample_clock overrun_trace)).
  { apply (run_reachable sample_clock overrun_trace initial_state);
      [apply reachable_initial|vm_compute; reflexivity]. }
  specialize (H _ Hr). vm_compute in H.
  assert (Hlt : (2 ?= 2)%N = Lt) by (apply H; discriminate).
  discriminate Hlt.
Defined.

Lemma submit_appends_user_then_reply_witness :
  forallb is_white_space (chatInput_value
                            (set_chatInput_value (lit "   ") loaded_page))
  = true
  /\ submit_handler sample_clock 0
       (set_chatInput_value (lit "   ") loaded_page)
     = set_chatInput_value (lit "   ") loaded_page.
Proof.
  split; [reflexivity|].
  apply (proj1 (submit_appends_user_then_reply sample_clock 0
                  (set_chatInput_value (lit "   ") loaded_page))).
  reflexivity.
Defined.

(** C2, as stated, fails: a reply whose [error] field is present and
    empty is answered with the AI view of its message, not with a system
    view. *)
Lemma submit_empty_error_counterexample :
  error empty_error_reply <> None
  /\ chatMessages
       (submit_settled sample_clock 1 (Fulfilled empty_error_reply)
          (after sample_clock submit_trace))
     = chatMessages (after sample_clock submit_trace)
       ++ [Message (ai_view sample_clock 1 (lit "Hello"))]
  /\ forall text,
       ai_view sample_clock 1 (lit "Hello") <> system_view text.
Proof.
  split; [discriminate|]. split; [vm_compute; reflexivity|].
  intros text H. apply (f_equal avatar) in H. discriminate H.
Defined.

Lemma controls_restored_after_action_witness :
  trim (chatInput_value (after sample_clock [EvInput (lit " hi ")]))
  = lit "hi"
  /\ chatInput_disabled
       (submit_handler sample_clock 0
          (after sample_clock [EvInput (lit " hi ")])) = true.
Proof.
  split; [reflexivity|].
  refine (proj1 (proj1 (proj2 (proj2
            (controls_restored_after_action sample_clock 0 Rejected
               (after sample_clock [EvInput (lit " hi ")]))))
            104%N [105%N] _)).
  reflexivity.
Defined.

Lemma application_error_is_surfaced_witness :
  error error_reply = Some (lit "quota exceeded")
  /\ chatMessages
       (submit_settled sample_clock 1 (Fulfilled error_reply)
          (after sample_clock submit_trace))
     = chatMessages (after sample_clock submit_trace)
       ++ [Message (system_view (lit "Error: quota exceeded"))].
Proof.
  split; [reflexivity|].
  apply (proj1 (application_error_is_surfaced sample_clock 1 error_reply
                  (after sample_clock submit_trace) 113%N
                  (lit "uota exceeded") eq_refl)).
Defined.

(** C4, as stated, fails: a reply whose [error] field is present and
    empty is treated as a success; its message is shown as an AI view, its
    plan replaces the stored one and the first-message flag is cleared. *)
Lemma empty_error_mutates_state_counterexample :
  error empty_error_reply <> None
  /\ (let s := after sample_clock submit_trace in
      let s' :=
        submit_settled sample_clock 1 (Fulfilled empty_error_reply) s in
      (forall text,
         chatMessages s' <> chatMessages s ++ [Message (system_view text)])
      /\ currentLessonPlan s = []
      /\ currentLessonPlan s' = [lit "A"]
      /\ isFirstMessage s = true
      /\ isFirstMessage s' = false).
Proof.
  split; [discriminate|]. cbv zeta. split; [|repeat split].
  intros text H. vm_compute in H.
  injection H as H. discriminate H.
Defined.

(** C6, as stated, fails: a replayed history entry whose sender is
    'system' is not escaped and nothing more; its text [*warn*] goes
    through the markup pass and comes out emphasised. *)
Lemma replayed_system_text_counterexample :
  sender system_entry = lit "system"
  /\ h_message system_entry = lit "*warn*"
  /\ escapeHtml (h_message system_entry) = lit "*warn*"
  /\ reachable sample_clock (after sample_clock system_history_trace)
  /\ chatMessages (after sample_clock system_history_trace)
     = [Message {| className := "message ai"; avatar := AvatarRobot;
                   bubble := lit "<em>warn</em>";
                   time := Some (lit "10:00 AM") |}]
  /\ ~ (forall msg,
          sender msg = lit "system" ->
          bubble (history_view sample_clock msg)
          = escapeHtml (h_message msg)).
Proof.
  split; [reflexivity|]. split; [reflexivity|].
  split; [vm_compute; reflexivity|].
  split.
  { apply (run_reachable sample_clock system_history_trace initial_state);
      [apply reachable_initial|vm_compute; reflexivity]. }
  split; [vm_compute; reflexivity|].
  intros H. specialize (H system_entry eq_refl).
  vm_compute in H. discriminate H.
Defined.

Lemma formatMessage_is_escaped_markup_witness :
  reference_render (lit "*a*") (lit "<em>a</em>").
Proof.
  apply (proj1 (formatMessage_is_escaped_markup sample_clock (lit "*a*"))).
  vm_compute. reflexivity.
Defined.



Lemma finished_reply_hides_controls_once_witness :
  truthy_str (error finished_reply) = false
  /\ is_finished finished_reply = Some true
  /\ lessonControls_display
       (submit_settled sample_clock 1 (Fulfilled finished_reply)
          (after sample_clock submit_trace)) = DisplayNone.
Proof.
  split; [reflexivity|]. split; [reflexivity|].
  apply (proj1 (proj1 (finished_reply_hides_controls_once sample_clock 1
                         finished_reply
                         (after sample_clock submit_trace) eq_refl)
                  eq_refl)).
Defined.

Lemma loadSession_replays_history_witness :
  sender user_entry = lit "user"
  /\ className (history_view sample_clock user_entry)
     = "message user"%string.
Proof.
  split; [reflexivity|].
  rewrite (proj1 (proj1 (proj2 (loadSession_replays_history sample_clock
                                  loaded_page)) user_entry) eq_refl).
  reflexivity.
Defined.

Lemma welcome_removed_only_witness :
  In WelcomeMessage (chatMessages loaded_page)
  /\ In WelcomeMessage
       (chatMessages (addAIMessage sample_clock 0 (lit "hi") loaded_page)).
Proof.
  assert (H : In WelcomeMessage (chatMessages loaded_page))
    by (simpl; left; reflexivity).
  split; [exact H|].
  exact (proj1 (proj1 (proj2 (proj2 (proj2 (proj2
           (welcome_removed_only_by_user_message_or_history sample_clock 0
              (lit "hi") loaded_page))))) H)).
Defined.

(** ** The further properties on sample inputs *)

Lemma overrun_reachable :
  reachable sample_clock (after sample_clock overrun_trace).
Proof.
  apply (run_reachable sample_clock overrun_trace initial_state);
    [apply reachable_initial|vm_compute; reflexivity].
Qed.

Lemma awaiting_next_reachable :
  reachable sample_clock (after sample_clock awaiting_next).
Proof.
  apply (run_reachable sample_clock awaiting_next initial_state);
    [apply reachable_initial|vm_compute; reflexivity].
Qed.

Lemma escapeHtml_injective_witness :
  lit "<" <> lit "&lt;" /\ escapeHtml (lit "<") <> escapeHtml (lit "&lt;").
Proof.
  assert (H : lit "<" <> lit "&lt;") by (vm_compute; discriminate).
  split; [exact H|exact (escapeHtml_injective _ _ H)].
Defined.

Lemma formatMessage_plain_text_witness :
  count_unit 42%N (lit "2 * 3 < 7") <= 1
  /\ formatMessage (lit "2 * 3 < 7") = lit "2 * 3 &lt; 7".
Proof.
  assert (H : count_unit 42%N (lit "2 * 3 < 7") <= 1)
    by (vm_compute; repeat constructor).
  split; [exact H|].
  rewrite (proj1 (formatMessage_plain_text (lit "2 * 3 < 7") H)).
  vm_compute. reflexivity.
Defined.

Lemma formatMessage_wrapped_run_witness :
  formatMessage (lit "a " ++ lit "**" ++ lit "b<c" ++ lit "**" ++ lit " d")
  = lit "a <strong>b&lt;c</strong> d".
Proof.
  rewrite (proj1 (formatMessage_wrapped_run (lit "a ") (lit "b<c") (lit " d")
                    ltac:(vm_compute; intuition discriminate)
                    ltac:(vm_compute; intuition discriminate)
                    ltac:(vm_compute; intuition discriminate)
                    ltac:(discriminate)
                    ltac:(repeat constructor))).
  vm_compute. reflexivity.
Defined.

Lemma submitted_text_is_trimmed_input_witness :
  forallb is_white_space
    (chatInput_value (after sample_clock [EvInput (lit " hi ")])) = false
  /\ exists pre sent post,
      chatInput_value (after sample_clock [EvInput (lit " hi ")])
      = pre ++ sent ++ post
      /\ fetches (submit_handler sample_clock 0
                    (after sample_clock [EvInput (lit " hi ")]))
         = fetches (after sample_clock [EvInput (lit " hi ")])
           ++ [PostChat sent].
Proof.
  split; [reflexivity|].
  destruct (submitted_text_is_trimmed_input sample_clock 0
              (after sample_clock [EvInput (lit " hi ")]) eq_refl)
    as (pre & sent & post & Hv & _ & _ & _ & _ & _ & Hf & _).
  now exists pre, sent, post.
Defined.

Lemma requests_only_on_user_action_witness :
  dispatch sample_clock (EvClearHistoryClick true)
    (after sample_clock awaiting_next)
  = Some (clearHistoryBtn_click true (after sample_clock awaiting_next))
  /\ fetches (clearHistoryBtn_click true (after sample_clock awaiting_next))
     = fetches (after sample_clock awaiting_next) ++ [DeleteSession].
Proof.
  assert (H : dispatch sample_clock (EvClearHistoryClick true)
                (after sample_clock awaiting_next)
              = Some (clearHistoryBtn_click true
                        (after sample_clock awaiting_next)))
    by reflexivity.
  split; [exact H|].
  exact (proj1 (requests_only_on_user_action sample_clock
                  (after sample_clock awaiting_next)) _ _ H).
Defined.

Lemma disabled_controls_witness :
  nextLessonBtn_disabled (after sample_clock awaiting_next) = true
  /\ exists action,
      In (TaskControl action) (pending (after sample_clock awaiting_next)).
Proof.
  assert (H : nextLessonBtn_disabled (after sample_clock awaiting_next)
              = true) by reflexivity.
  split; [exact H|].
  exact (proj1 (disabled_controls_have_request_in_flight sample_clock _
                  awaiting_next_reachable) (or_introl H)).
Defined.

Lemma shown_toast_has_timer_witness :
  toast_show (after sample_clock clear_history_trace) = true
  /\ toast_textContent (after sample_clock clear_history_trace)
     = lit "History cleared successfully"
  /\ In TaskToastHide (pending (after sample_clock clear_history_trace)).
Proof.
  split; [reflexivity|]. split; [reflexivity|].
  refine (proj1 (shown_toast_has_timer sample_clock _ _) _).
  - apply (run_reachable sample_clock clear_history_trace initial_state);
      [apply reachable_initial|vm_compute; reflexivity].
  - reflexivity.
Defined.

Lemma progress_counters_witness :
  progress_in_sync (after sample_clock overrun_trace).
Proof.
  exact (progress_counters_follow_lesson_state sample_clock _
           overrun_reachable).
Defined.

Lemma lesson_numbers_witness :
  nth_error (lessonList (after sample_clock overrun_trace)) 1
  = Some {| item_className := "lesson-item completed";
            lesson_number := Some 2%N;
            lesson_text := lit "B" |}
  /\ ((lesson_number
         {| item_className := "lesson-item completed";
            lesson_number := Some 2%N;
            lesson_text := lit "B" |} = None
       /\ (N.of_nat 1 < currentLessonIndex (after sample_clock overrun_trace))%N)
      \/ lesson_number
           {| item_className := "lesson-item completed";
              lesson_number := Some 2%N;
              lesson_text := lit "B" |}
         = Some (js_succ (N.of_nat 1))).
Proof.
  assert (H : nth_error (lessonList (after sample_clock overrun_trace)) 1
              = Some {| item_className := "lesson-item completed";
                        lesson_number := Some 2%N;
                        lesson_text := lit "B" |})
    by (vm_compute; reflexivity).
  split; [exact H|].
  exact (lesson_numbers_are_positions sample_clock _ 1 _
           overrun_reachable H).
Defined.

Lemma plan_replaced_witness :
  dispatch sample_clock
    (EvChatSettled TaskSubmit 1 (Fulfilled plan_reply))
    (after sample_clock submit_trace)
  = Some (after sample_clock
            (submit_trace
             ++ [EvChatSettled TaskSubmit 1 (Fulfilled plan_reply)]))
  /\ currentLessonPlan
       (after sample_clock
          (submit_trace
           ++ [EvChatSettled TaskSubmit 1 (Fulfilled plan_reply)]))
     = [lit "A"; lit "B"].
Proof.
  assert (H : dispatch sample_clock
                (EvChatSettled TaskSubmit 1 (Fulfilled plan_reply))
                (after sample_clock submit_trace)
              = Some (after sample_clock
                        (submit_trace
                         ++ [EvChatSettled TaskSubmit 1
                               (Fulfilled plan_reply)])))
    by (vm_compute; reflexivity).
  split; [exact H|].
  exact (plan_replaced_only_by_submit_reply sample_clock _ _ _ H).
Defined.

Lemma first_message_flag_witness :
  lessonControls_display (after sample_clock overrun_trace) = DisplayFlex
  /\ isFirstMessage (after sample_clock overrun_trace) = false.
Proof.
  assert (H : lessonControls_display (after sample_clock overrun_trace)
              = DisplayFlex) by reflexivity.
  split; [exact H|].
  exact (proj1 (first_message_flag_and_controls sample_clock _)
           overrun_reachable H).
Defined.

Lemma transcript_keeps_shape_witness :
  transcript_shape (chatMessages (after sample_clock overrun_trace)).
Proof.
  exact (transcript_keeps_shape sample_clock _ overrun_reachable).
Defined.


Lemma user_menu_stays_consistent_witness :
  userMenuBtn_active
    (fold_left menu_step
       [MenuButtonClick; DocumentClick false true; DocumentClick false false]
       {| userMenuBtn_active := false; userDropdown_show := false |})
  = userDropdown_show
      (fold_left menu_step
         [MenuButtonClick; DocumentClick false true;
          DocumentClick false false]
         {| userMenuBtn_active := false; userDropdown_show := false |}).
Proof.
  exact (proj1 (user_menu_stays_consistent
                  [MenuButtonClick; DocumentClick false true;
                   DocumentClick false false]
                  {| userMenuBtn_active := false;
                     userDropdown_show := false |} eq_refl)).
Defined.

Lemma history_views_match_live_views_witness :
  sender user_entry = lit "user"
  /\ bubble (history_view sample_clock user_entry)
     = bubble (user_view sample_clock 0 (lit "hi")).
Proof.
  split; [reflexivity|].
  rewrite (proj1 (history_views_match_live_views sample_clock 0 user_entry)
             eq_refl).
  reflexivity.
Defined.
